(** * Retail-sales pipeline: generator (generate_sales.py), loader (loader.py)
    and persistence gateway (simple_database.py).

    The Python code is embedded as executable Rocq functions.  Everything the
    code obtains from outside (the PostgreSQL server, the clock, the random
    generator, the directory tree, what pandas parsed out of a file) is an
    explicit argument, so that every run of the program is a run of the model
    for some value of these arguments.

    Conventions of the embedding
    - Python [str] is [string]; file and directory names are taken to be ASCII
      (Python's [\d] and [str.lower] also know non-ASCII digits and letters).
    - Python [int] is [Z].
    - pandas keeps prices in binary floating point; the model keeps the exact
      decimal value as a rational [Q] and the two infinities.  Sign tests,
      which is all the properties below rely on, agree on both.
    - Log output is not modelled. *)

From Stdlib Require Import Ascii String QArith Qround.
From stdpp Require Import base tactics option list strings gmap pretty sorting.

Local Open Scope string_scope.
Local Open Scope list_scope.
Local Open Scope Z_scope.
#[local] Set Warnings "-register-all".

(** ** Exceptions *)

(** A Python call either returns or raises; [Raise] carries [str(e)]. *)
Inductive result (A : Type) : Type :=
| Ok (a : A)
| Raise (e : string).
Arguments Ok {A} a.
Arguments Raise {A} e.

(** ** Characters and strings *)

Definition is_digit (c : ascii) : bool :=
  match Ascii.is_nat c with Some _ => true | None => false end.

Definition digit_value (c : ascii) : Z :=
  match Ascii.is_nat c with Some n => Z.of_nat n | None => 0 end.

(** [int(s)] for a string of decimal digits. *)
Fixpoint int_of_digits_go (acc : Z) (s : string) : Z :=
  match s with
  | EmptyString => acc
  | String c s' => int_of_digits_go (10 * acc + digit_value c) s'
  end.
Definition int_of_digits (s : string) : Z := int_of_digits_go 0 s.

(** The longest prefix of digits and what follows it: the regex [\d*]. *)
Fixpoint span_digits (s : string) : string * string :=
  match s with
  | String c s' =>
      if is_digit c then let '(d, r) := span_digits s' in (String c d, r)
      else (EmptyString, s)
  | EmptyString => (EmptyString, EmptyString)
  end.

Fixpoint ends_with (suffix s : string) : bool :=
  if String.eqb s suffix then true
  else match s with
       | EmptyString => false
       | String _ s' => ends_with suffix s'
       end.

(** Decimal text of a non-negative number, left-padded with zeros to [width]:
    the [%0Nd] of [strftime]. *)
Fixpoint zero_pad (fuel : nat) (s : string) : string :=
  match fuel with
  | O => s
  | S n => zero_pad n (String "0" s)
  end.
Definition pad_number (width : nat) (n : Z) : string :=
  let s := pretty n in
  zero_pad (width - String.length s) s.

(** ** Calendar: datetime.strptime(_, "%Y-%m-%d"), weekday(), strftime *)

Module Calendar.

Record date := mkDate { year : Z; month : Z; day : Z }.

Global Instance date_eq_dec : EqDecision date.
Proof. solve_decision. Defined.

Definition is_leap (y : Z) : bool :=
  (y mod 4 =? 0) && (negb (y mod 100 =? 0) || (y mod 400 =? 0)).

Definition days_in_month (y m : Z) : Z :=
  if (m =? 2) && is_leap y then 29
  else match m with
       | 1 => 31 | 2 => 28 | 3 => 31 | 4 => 30 | 5 => 31 | 6 => 30
       | 7 => 31 | 8 => 31 | 9 => 30 | 10 => 31 | 11 => 30 | 12 => 31
       | _ => 0
       end.

(** [date(y, m, d)] raises ValueError outside these bounds. *)
Definition valid_date (y m d : Z) : bool :=
  (1 <=? y) && (y <=? 9999) && (1 <=? m) && (m <=? 12)
  && (1 <=? d) && (d <=? days_in_month y m).

Definition days_before_year (y : Z) : Z :=
  let p := y - 1 in p * 365 + p / 4 - p / 100 + p / 400.

Definition days_before_month (y m : Z) : Z :=
  match m with
  | 1 => 0 | 2 => 31 | 3 => 59 | 4 => 90 | 5 => 120 | 6 => 151
  | 7 => 181 | 8 => 212 | 9 => 243 | 10 => 273 | 11 => 304 | 12 => 334
  | _ => 0
  end + (if (2 <? m) && is_leap y then 1 else 0).

Definition toordinal (d : date) : Z :=
  days_before_year (year d) + days_before_month (year d) (month d) + day d.

(** Monday is 0, Sunday is 6. *)
Definition weekday (d : date) : Z := (toordinal d + 6) mod 7.

(** The directive [%Y] is the regex [\d\d\d\d]. *)
Definition match_Y (s : string) : option (Z * string) :=
  match s with
  | String a (String b (String c (String d r))) =>
      if is_digit a && is_digit b && is_digit c && is_digit d
      then Some (int_of_digits (String a (String b (String c (String d "")))), r)
      else None
  | _ => None
  end.

Definition in_range (lo hi c : ascii) : bool :=
  (nat_of_ascii lo <=? nat_of_ascii c)%nat && (nat_of_ascii c <=? nat_of_ascii hi)%nat.

Definition two (p1 p2 : ascii -> bool) (s : string) : option (Z * string) :=
  match s with
  | String a (String b r) =>
      if p1 a && p2 b then Some (10 * digit_value a + digit_value b, r) else None
  | _ => None
  end.

Definition one (p : ascii -> bool) (s : string) : option (Z * string) :=
  match s with
  | String a r => if p a then Some (digit_value a, r) else None
  | _ => None
  end.

(** The directive [%m] is [1[0-2]|0[1-9]|[1-9]], alternatives in this order. *)
Definition alts_m : list (string -> option (Z * string)) :=
  [ two (in_range "1" "1") (in_range "0" "2");
    two (in_range "0" "0") (in_range "1" "9");
    one (in_range "1" "9") ].

(** The directive [%d] is [3[01]|[12]\d|0[1-9]|[1-9]| [1-9]]. *)
Definition alts_d : list (string -> option (Z * string)) :=
  [ two (in_range "3" "3") (in_range "0" "1");
    two (in_range "1" "2") is_digit;
    two (in_range "0" "0") (in_range "1" "9");
    one (in_range "1" "9");
    two (fun c => bool_decide (c = " "%char)) (in_range "1" "9") ].

Definition literal (c : ascii) (s : string) : option string :=
  match s with
  | String a r => if bool_decide (a = c) then Some r else None
  | _ => None
  end.

(** First alternative, in order, for which the rest of the pattern matches:
    the backtracking of [re.match]. *)
Fixpoint first_alt {A B} (alts : list (string -> option (A * string)))
    (k : A -> string -> option B) (s : string) : option B :=
  match alts with
  | [] => None
  | p :: ps =>
      match p s with
      | Some (a, r) =>
          match k a r with
          | Some b => Some b
          | None => first_alt ps k s
          end
      | None => first_alt ps k s
      end
  end.

(** [re.match] of the compiled format on the text: what was found and the
    unconverted remainder. *)
Definition format_regex_match (s : string) : option (Z * Z * Z * string) :=
  match match_Y s with
  | None => None
  | Some (y, r1) =>
      match literal "-" r1 with
      | None => None
      | Some r2 =>
          first_alt alts_m (fun m r3 =>
            match literal "-" r3 with
            | None => None
            | Some r4 => first_alt alts_d (fun d r5 => Some (y, m, d, r5)) r4
            end) r2
      end
  end.

(** [datetime.strptime(s, "%Y-%m-%d")]; [None] stands for ValueError. *)
Definition strptime (s : string) : option date :=
  match format_regex_match s with
  | Some (y, m, d, EmptyString) =>
      if valid_date y m d then Some (mkDate y m d) else None
  | _ => None
  end.

(** [d.strftime("%Y-%m-%d")], in the zero-padded form the Python
    documentation gives. *)
Definition strftime (d : date) : string :=
  pad_number 4 (year d) +:+ "-" +:+ pad_number 2 (month d) +:+ "-" +:+ pad_number 2 (day d).

(** [a <= b] on two datetimes at midnight: year, month and day are
    compared in this order. *)
Definition date_le (a b : date) : bool :=
  (year a <? year b)
  || ((year a =? year b)
      && ((month a <? month b) || ((month a =? month b) && (day a <=? day b)))).

(** [d + timedelta(days=1)]; [None] stands for the OverflowError past
    9999-12-31. *)
Definition next_day (d : date) : option date :=
  if day d <? days_in_month (year d) (month d)
  then Some (mkDate (year d) (month d) (day d + 1))
  else if month d <? 12 then Some (mkDate (year d) (month d + 1) 1)
  else if year d <? 9999 then Some (mkDate (year d + 1) 1 1)
  else None.

End Calendar.

(** ** Rounding *)

(** Nearest integer, ties to even. *)
Definition round_half_even (q : Q) : Z :=
  let f := Qfloor q in
  match Qcompare (q - inject_Z f) (1 # 2) with
  | Lt => f
  | Gt => f + 1
  | Eq => if Z.even f then f else f + 1
  end.

(** [round(x, 2)]: to the nearest hundredth. *)
Definition round_2dp (q : Q) : Q := Qmake (round_half_even (q * 100)) 100.

(** ** Values held by a pandas DataFrame *)

(** A float other than NaN. *)
Inductive number :=
| Fin (q : Q)
| PosInf
| NegInf.

(** One cell as [pd.read_csv] delivers it: missing (NaN), a number, or text.
    [Text] stands for text that has no numeric reading; a cell such as "2"
    in a column read as text is represented by its number, which is what
    [pd.to_numeric] makes of it. *)
Inductive cell :=
| NA
| Num (x : number)
| Text (s : string).

(** One dict of [df.to_dict('records')] after preparation. *)
Record sales_record := mkRecord {
  doc_id : cell;
  item : cell;
  category : cell;
  amount : Z;
  price : number;
  discount : number;
  store_id : Z;
  cash_id : Z;
  receipt_date : Calendar.date
}.

(** ** simple_database.py *)

Module SimpleDB.

(** A row of table [receipts]. *)
Record receipt := mkReceipt {
  r_doc_id : cell;
  r_store_id : Z;
  r_cash_id : Z;
  r_item : cell;
  r_category : cell;
  quantity : Z;
  unit_price : number;
  discount_amount : number;
  r_receipt_date : Calendar.date;
  file_name : string
}.

(** A column that an INSERT does not mention takes the default of the schema
    (sql/create_tables.sql), which is kept symbolic. *)
Inductive column (A : Type) : Type :=
| Default
| Value (a : A).
Arguments Default {A}.
Arguments Value {A} a.

(** A row of table [processed_files], without its key [file_name]. *)
Record processed_file := mkProcessed {
  status : string;
  records_count : column Z;
  error_message : column string;
  processed_at : column Z
}.

(** [ON CONFLICT (file_name)] needs [file_name] to be unique: the ledger is a
    finite map from file names. *)
Record database := mkDb {
  receipts : list receipt;
  processed_files : gmap string processed_file
}.

(** What the server does to one connection.  Each of [save_file_data] and
    [is_file_processed] opens its own connection. *)
Record faults := mkFaults {
  connect_error : option string;        (* psycopg2.connect raises *)
  execute_error : nat -> option string; (* the k-th cursor.execute raises *)
  commit_error : option string;         (* the first conn.commit raises *)
  rollback_error : option string;       (* conn.rollback raises *)
  error_record_error : option string;   (* execute or commit of the error record raises *)
  current_timestamp : Z                 (* CURRENT_TIMESTAMP *)
}.

Definition no_faults (now : Z) : faults :=
  mkFaults None (fun _ => None) None None None now.

(** DELETE FROM receipts WHERE file_name = %s *)
Definition delete_receipts (filename : string) (rs : list receipt) : list receipt :=
  filter (fun r => file_name r ≠ filename) rs.

(** INSERT INTO receipts (...) VALUES (...) *)
Definition to_receipt (filename : string) (row : sales_record) : receipt :=
  mkReceipt (doc_id row) (store_id row) (cash_id row) (item row) (category row)
            (amount row) (price row) (discount row) (receipt_date row) filename.

(** The loop [for row in data: cursor.execute(INSERT ...)]; [k] numbers the
    statements of the connection. *)
Fixpoint insert_rows (f : faults) (filename : string) (k : nat)
    (data : list sales_record) (rs : list receipt) : string + list receipt :=
  match data with
  | [] => inr rs
  | row :: rest =>
      match execute_error f k with
      | Some e => inl e
      | None => insert_rows f filename (S k) rest (rs ++ [to_receipt filename row])
      end
  end.

(** INSERT INTO processed_files (file_name, records_count, status)
    VALUES (%s, %s, 'success') ON CONFLICT (file_name) DO UPDATE
    SET processed_at = CURRENT_TIMESTAMP, status = 'success',
        records_count = EXCLUDED.records_count *)
Definition upsert_success (filename : string) (n now : Z)
    (pf : gmap string processed_file) : gmap string processed_file :=
  match pf !! filename with
  | None => <[filename := mkProcessed "success" (Value n) Default Default]> pf
  | Some old =>
      <[filename := mkProcessed "success" (Value n) (error_message old) (Value now)]> pf
  end.

(** INSERT INTO processed_files (file_name, status, error_message)
    VALUES (%s, 'error', %s) ON CONFLICT (file_name) DO UPDATE
    SET processed_at = CURRENT_TIMESTAMP, status = 'error',
        error_message = EXCLUDED.error_message *)
Definition upsert_error (filename msg : string) (now : Z)
    (pf : gmap string processed_file) : gmap string processed_file :=
  match pf !! filename with
  | None => <[filename := mkProcessed "error" Default (Value msg) Default]> pf
  | Some old =>
      <[filename := mkProcessed "error" (records_count old) (Value msg) (Value now)]> pf
  end.

(** The body of the [try] after [connect]: DELETE, the INSERTs, the ledger
    upsert and [conn.commit()].  [inl e] is the exception raised; the
    uncommitted work is then lost. *)
Definition success_transaction (f : faults) (filename : string)
    (data : list sales_record) (db : database) : string + database :=
  match execute_error f 0 with
  | Some e => inl e
  | None =>
      match insert_rows f filename 1 data (delete_receipts filename (receipts db)) with
      | inl e => inl e
      | inr rs =>
          match execute_error f (S (length data)) with
          | Some e => inl e
          | None =>
              match commit_error f with
              | Some e => inl e
              | None =>
                  inr (mkDb rs (upsert_success filename (Z.of_nat (length data))
                                  (current_timestamp f) (processed_files db)))
              end
          end
      end
  end.

(** The inner [try]: record the error, [str(e)[:200]]; a failure here is
    logged and swallowed. *)
Definition record_error (f : faults) (filename e : string) (db : database) : database :=
  match error_record_error f with
  | Some _ => db
  | None =>
      mkDb (receipts db)
           (upsert_error filename (substring 0 200 e) (current_timestamp f)
              (processed_files db))
  end.

Definition save_file_data (f : faults) (filename : string)
    (data : list sales_record) (db : database) : result bool * database :=
  match connect_error f with
  | Some _ => (Ok false, db)          (* conn is None: nothing to roll back or record *)
  | None =>
      match success_transaction f filename data db with
      | inr db' => (Ok true, db')
      | inl e =>
          match rollback_error f with
          | Some e' => (Raise e', db)  (* raised inside the handler: propagates *)
          | None => (Ok false, record_error f filename e db)
          end
      end
  end.

(** SELECT 1 FROM processed_files WHERE file_name = %s AND status = 'success' *)
Definition select_success (filename : string) (db : database) : bool :=
  match processed_files db !! filename with
  | Some e => bool_decide (status e = "success")
  | None => false
  end.

Definition is_file_processed (f : faults) (filename : string) (db : database) : bool :=
  match connect_error f with
  | Some _ => false
  | None =>
      match execute_error f 0 with
      | Some _ => false
      | None => select_success filename db
      end
  end.

End SimpleDB.

(** ** The directory tree and paths (pathlib) *)

(** What [pd.read_csv] makes of a file: the header and, of every row, the six
    columns the loader reads.  The cells of a column that the header lacks
    are never looked at. *)
Record raw_row := mkRaw {
  raw_doc_id : cell;
  raw_item : cell;
  raw_category : cell;
  raw_amount : cell;
  raw_price : cell;
  raw_discount : cell
}.

Record dataframe := mkFrame {
  columns : list string;
  rows : list raw_row
}.

(** A directory entry.  [csv] is the outcome of [pd.read_csv] on the file,
    [None] when it raises. *)
Inductive node :=
| File (name : string) (st_size : Z) (csv : option dataframe)
| Dir (name : string) (st_size : Z) (children : list node).

Definition node_name (n : node) : string :=
  match n with File s _ _ | Dir s _ _ => s end.

Definition node_size (n : node) : Z :=
  match n with File _ z _ | Dir _ z _ => z end.

(** A path is the list of its components; no [..] and no symbolic links. *)
Abbreviation path := (list string).

(** [p.name] *)
Definition path_name (p : path) : string := default "" (last p).
(** [p.parent.name] *)
Definition parent_name (p : path) : string := path_name (removelast p).

Fixpoint rfind_dot (s : string) : option nat :=
  match s with
  | EmptyString => None
  | String c s' =>
      match rfind_dot s' with
      | Some i => Some (S i)
      | None => if bool_decide (c = "."%char) then Some O else None
      end
  end.

(** [p.suffix] of a file name. *)
Definition suffix (name : string) : string :=
  match rfind_dot name with
  | Some i =>
      if ((0 <? i) && (i <? String.length name - 1))%nat
      then substring i (String.length name - i) name
      else ""
  | None => ""
  end.

Definition lower_char (c : ascii) : ascii :=
  let n := nat_of_ascii c in
  if ((65 <=? n) && (n <=? 90))%nat then ascii_of_nat (n + 32) else c.

(** [s.lower()] *)
Fixpoint lower (s : string) : string :=
  match s with
  | EmptyString => EmptyString
  | String c s' => String (lower_char c) (lower s')
  end.

Definition find_entry (name : string) (entries : list node) : option node :=
  List.find (fun n => bool_decide (node_name n = name)) entries.

(** The entry a path leads to, from the entries of the starting directory. *)
Fixpoint resolve (entries : list node) (p : path) : option node :=
  match p with
  | [] => None
  | [n] => find_entry n entries
  | n :: rest =>
      match find_entry n entries with
      | Some (Dir _ _ cs) => resolve cs rest
      | _ => None
      end
  end.

(** [p.exists()] *)
Definition exists_ (fs : list node) (p : path) : bool :=
  match p with
  | [] => true
  | _ => bool_decide (is_Some (resolve fs p))
  end.

(** [p.stat().st_size]; [None] when [stat] raises. *)
Definition stat_size (fs : list node) (p : path) : option Z :=
  node_size <$> resolve fs p.

(** [pd.read_csv(p, encoding='utf-8')]; [None] when it raises. *)
Definition read_csv (fs : list node) (p : path) : option dataframe :=
  match resolve fs p with
  | Some (File _ _ c) => c
  | _ => None
  end.

(** The entries of one directory that match [*.csv]. *)
Definition matching (here : path) (entries : list node) : list path :=
  (fun n => here ++ [node_name n]) <$>
    filter (fun n => ends_with ".csv" (node_name n) = true) entries.

Fixpoint rglob_node (here : path) (n : node) : list path :=
  match n with
  | File _ _ _ => []
  | Dir name _ cs =>
      let d := here ++ [name] in
      matching d cs ++
      (fix sub (l : list node) : list path :=
         match l with
         | [] => []
         | c :: l' => rglob_node d c ++ sub l'
         end) cs
  end.

(** [base_dir.rglob("*.csv")]: the matching entries of the directory, then
    those of its subdirectories. *)
Definition rglob_csv (fs : list node) (base_dir : path) : list path :=
  match base_dir with
  | [] => matching [] fs ++ flat_map (rglob_node []) fs
  | _ =>
      match resolve fs base_dir with
      | Some (Dir _ _ cs) => matching base_dir cs ++ flat_map (rglob_node base_dir) cs
      | _ => []
      end
  end.

(** ** loader.py *)

Module DataLoader.

(** The counters of a [DataLoader] instance, set to 0 by [__init__]. *)
Record loader := mkLoader {
  processed_count : Z;
  error_count : Z;
  total_records : Z
}.

Definition init : loader := mkLoader 0 0 0.

(** [re.match(r'(\d+)_(\d+)\.csv$', name)]: [$] also matches before a final
    newline. *)
Definition extract_store_cash_from_filename (name : string) : option (Z * Z) :=
  let '(d1, r1) := span_digits name in
  match d1, r1 with
  | String _ _, String "_" r2 =>
      let '(d2, r3) := span_digits r2 in
      match d2 with
      | String _ _ =>
          if bool_decide (r3 = ".csv") || bool_decide (r3 = ".csv" +:+ String "010" "")
          then Some (int_of_digits d1, int_of_digits d2)
          else None
      | EmptyString => None
      end
  | _, _ => None
  end.

Definition validate_csv_file (fs : list node) (filepath : path) : bool :=
  if negb (bool_decide (lower (suffix (path_name filepath)) = ".csv")) then false
  else if negb (bool_decide (is_Some (extract_store_cash_from_filename (path_name filepath))))
  then false
  else match stat_size fs filepath with
       | None => false                    (* stat raised: caught *)
       | Some sz => negb (sz =? 0)
       end.

Definition required_columns : list string :=
  ["doc_id"; "item"; "category"; "amount"; "price"; "discount"].

Definition missing_columns (df : dataframe) : list string :=
  filter (fun col => col ∉ columns df) required_columns.

Definition isna (c : cell) : bool :=
  match c with NA => true | _ => false end.

(** [df.dropna(subset=['doc_id', 'item'])] keeps these rows. *)
Definition has_keys (r : raw_row) : bool :=
  negb (isna (raw_doc_id r)) && negb (isna (raw_item r)).

(** [df.fillna({'discount': 0})] *)
Definition fillna_discount (r : raw_row) : raw_row :=
  mkRaw (raw_doc_id r) (raw_item r) (raw_category r) (raw_amount r) (raw_price r)
        (if isna (raw_discount r) then Num (Fin 0%Q) else raw_discount r).

(** [pd.to_numeric(_, errors='coerce')]: [None] is NaN. *)
Definition to_numeric (c : cell) : option number :=
  match c with
  | Num x => Some x
  | NA | Text _ => None
  end.

(** [.fillna(v)] on a numeric column. *)
Definition fillna (v : Q) (x : option number) : number := default (Fin v) x.

(** [.astype(int)]: truncation toward zero; raises on an infinity.  (A value
    beyond 64 bits is outside the model.) *)
Definition astype_int (x : number) : option Z :=
  match x with
  | Fin q => Some (Z.quot (Qnum q) (Zpos (Qden q)))
  | PosInf | NegInf => None
  end.

Definition number_ge0 (x : number) : bool :=
  match x with
  | Fin q => Qle_bool 0 q
  | PosInf => true
  | NegInf => false
  end.

(** [Series.round(2)] *)
Definition round2 (x : number) : number :=
  match x with
  | Fin q => Fin (round_2dp q)
  | _ => x
  end.

(** The three type conversions of one row, lines 87-89; [None] when
    [astype(int)] raises.  The metadata of lines 95-97 is stamped here. *)
Definition convert_row (store cash : Z) (d : Calendar.date) (r : raw_row)
    : option sales_record :=
  match astype_int (fillna 1 (to_numeric (raw_amount r))) with
  | None => None
  | Some a =>
      Some (mkRecord (raw_doc_id r) (raw_item r) (raw_category r) a
              (fillna 0 (to_numeric (raw_price r)))
              (fillna 0 (to_numeric (raw_discount r)))
              store cash d)
  end.

(** The mask of line 92. *)
Definition in_range_row (r : sales_record) : bool :=
  (0 <? amount r) && number_ge0 (price r) && number_ge0 (discount r).

(** Lines 100-101. *)
Definition round_row (r : sales_record) : sales_record :=
  mkRecord (doc_id r) (item r) (category r) (amount r)
           (round2 (price r)) (round2 (discount r))
           (store_id r) (cash_id r) (receipt_date r).

(** [None] is the Python [None]: the file is rejected. *)
Definition read_and_prepare_data (fs : list node) (filepath : path)
    : option (list sales_record) :=
  match extract_store_cash_from_filename (path_name filepath) with
  | None => None                              (* unpacking None raises: caught *)
  | Some (store, cash) =>
      match Calendar.strptime (parent_name filepath) with
      | None => None
      | Some d =>
          match read_csv fs filepath with
          | None => None                      (* raised: caught *)
          | Some df =>
              match missing_columns df with
              | _ :: _ => None
              | [] =>
                  let kept := filter (fun r => has_keys r = true) (rows df) in
                  let filled := fillna_discount <$> kept in
                  match mapM (convert_row store cash d) filled with
                  | None => None              (* astype raised: caught *)
                  | Some typed =>
                      Some (round_row <$> filter (fun r => in_range_row r = true) typed)
                  end
              end
          end
      end
  end.

(** [process_file]; [chk] and [sav] are the behaviour of the server on the
    connection of [is_file_processed] and on that of [save_file_data]. *)
Definition process_file (chk sav : SimpleDB.faults) (fs : list node) (filepath : path)
    (st : loader * SimpleDB.database) : result bool * (loader * SimpleDB.database) :=
  let '(self, db) := st in
  let filename := path_name filepath in
  if SimpleDB.is_file_processed chk filename db then (Ok true, st)
  else if negb (validate_csv_file fs filepath) then (Ok false, st)
  else
    match read_and_prepare_data fs filepath with
    | None => (Ok false, st)
    | Some [] => (Ok false, st)               (* df.empty *)
    | Some df =>
        match SimpleDB.save_file_data sav filename df db with
        | (Raise e, db') => (Raise e, (self, db'))
        | (Ok true, db') =>
            (Ok true,
             (mkLoader (processed_count self + 1) (error_count self)
                       (total_records self + Z.of_nat (length df)), db'))
        | (Ok false, db') =>
            (Ok false,
             (mkLoader (processed_count self) (error_count self + 1)
                       (total_records self), db'))
        end
    end.

(** [(x.parent.name, x.name)], compared as Python compares tuples of [str]. *)
Definition sort_key (p : path) : string * string := (parent_name p, path_name p).

Definition key_le (k1 k2 : string * string) : Prop :=
  (k1.1 ≠ k2.1 ∧ String.le k1.1 k2.1) ∨ (k1.1 = k2.1 ∧ String.le k1.2 k2.2).

Global Instance key_le_dec : RelDecision key_le.
Proof. intros k1 k2. unfold key_le. apply _. Defined.

Definition path_le (p q : path) : Prop := key_le (sort_key p) (sort_key q).

Global Instance path_le_dec : RelDecision path_le.
Proof. intros p q. unfold path_le. apply _. Defined.

(** [list.sort(key=...)] is stable: an element goes before the first later
    one whose key is not smaller. *)
Fixpoint insert_sorted (x : path) (l : list path) : list path :=
  match l with
  | [] => [x]
  | y :: l' => if decide (path_le x y) then x :: l else y :: insert_sorted x l'
  end.

Definition sort_paths (l : list path) : list path := foldr insert_sorted [] l.

Definition in_date_dir (p : path) : Prop := is_Some (Calendar.strptime (parent_name p)).

Definition find_csv_files (fs : list node) (base_dir : path) : list path :=
  sort_paths (filter in_date_dir (rglob_csv fs base_dir)).

(** What [process_all_files] returns. *)
Record stats := mkStats {
  processed : Z;
  errors : Z;
  stats_total_records : Z;
  duration : Z
}.

(** The run environment of [process_all_files]: the server's behaviour on the
    two connections opened for the i-th file, and the two clock readings. *)
Record run_env := mkEnv {
  connections : nat -> SimpleDB.faults * SimpleDB.faults;
  start_time : Z;
  end_time : Z
}.

(** [for csv_file in csv_files: self.process_file(csv_file)]; the returned
    boolean is dropped, an exception ends the loop. *)
Fixpoint process_each (env : run_env) (i : nat) (fs : list node) (files : list path)
    (st : loader * SimpleDB.database) : result unit * (loader * SimpleDB.database) :=
  match files with
  | [] => (Ok tt, st)
  | f :: rest =>
      match process_file (connections env i).1 (connections env i).2 fs f st with
      | (Raise e, st') => (Raise e, st')
      | (Ok _, st') => process_each env (S i) fs rest st'
      end
  end.

(** Truth value of an optional [str] argument: [None] and [''] are false. *)
Definition truthy (o : option string) : bool :=
  match o with
  | Some s => negb (bool_decide (s = ""))
  | None => false
  end.

Definition process_all_files (env : run_env) (fs : list node) (DATA_DIR : path)
    (specific_date : option string) (st : loader * SimpleDB.database)
    : result stats * (loader * SimpleDB.database) :=
  match find_csv_files fs DATA_DIR with
  | [] => (Ok (mkStats 0 0 0 0), st)
  | csv_files =>
      let csv_files :=
        if truthy specific_date
        then filter (fun f => Some (parent_name f) = specific_date) csv_files
        else csv_files in
      match process_each env O fs csv_files st with
      | (Raise e, st') => (Raise e, st')
      | (Ok _, (self, db)) =>
          (Ok (mkStats (processed_count self) (error_count self) (total_records self)
                       (end_time env - start_time env)),
           (self, db))
      end
  end.

(** The parsed command line of the loader. *)
Record args := mkArgs {
  date : option string;
  file : option string;
  verbose : bool;
  force : bool
}.

(** Components of [Path(s)]: split at [/], empty and [.] components dropped. *)
Fixpoint split_path (cur : string) (s : string) : list string :=
  match s with
  | EmptyString => [String.rev cur]
  | String c s' =>
      if bool_decide (c = "/"%char) then String.rev cur :: split_path "" s'
      else split_path (String c cur) s'
  end.

Definition Path (s : string) : path :=
  filter (fun c => c ≠ "" ∧ c ≠ ".") (split_path "" s).

(** [main()], after argument parsing; a fresh [DataLoader] is created. *)
Definition main (env : run_env) (fs : list node) (DATA_DIR : path) (a : args)
    (db : SimpleDB.database) : result unit * (loader * SimpleDB.database) :=
  let st := (init, db) in
  if truthy (file a) then
    let filepath := Path (default "" (file a)) in
    if exists_ fs filepath then
      match process_file (connections env O).1 (connections env O).2 fs filepath st with
      | (Raise e, st') => (Raise e, st')
      | (Ok _, st') => (Ok tt, st')
      end
    else (Ok tt, st)
  else
    match process_all_files env fs DATA_DIR (date a) st with
    | (Raise e, st') => (Raise e, st')
    | (Ok _, st') => (Ok tt, st')
    end.

End DataLoader.

(** ** generate_sales.py *)

Module DataGenerator.

Record product := mkProduct {
  product_item : string;
  price_range : Q * Q
}.

(** The values of config.py.  The module is not part of the sources: the
    fields that generate_sales.py reads carry the names it reads them by. *)
Record config := mkConfig {
  DATA_DIR : path;
  NUM_STORES : Z;
  CATEGORIES : list string;
  PRODUCTS_BY_CATEGORY : gmap string (list product);
  DISCOUNT_PROBABILITY : Q;
  DISCOUNT_RANGE : Q * Q;
  holidays : list string;                 (* GENERATION_SETTINGS['holidays'] *)
  MIN_CASH_REGISTERS_PER_STORE : Z;
  MAX_CASH_REGISTERS_PER_STORE : Z;
  ITEMS_PER_RECEIPT_MIN : Z;
  ITEMS_PER_RECEIPT_MAX : Z;
  RECEIPTS_PER_CASH_PER_DAY : Z
}.

(** One dict appended by [generate_receipt]; a row of the written file. *)
Record item_row := mkItem {
  i_doc_id : string;
  i_item : string;
  i_category : string;
  i_amount : Z;
  i_price : Q;
  i_discount : Q;
  i_store_id : Z;
  i_cash_id : Z;
  i_receipt_date : Calendar.date
}.

(** What the run draws from outside: the raw integers behind module [random],
    the text of [datetime.now().strftime('%y%m%d%H%M%S')] at each call, and
    today's date. *)
Record entropy := mkEntropy {
  draw : nat -> Z;
  stamp : nat -> string;
  today : Calendar.date
}.

(** One [df.to_csv(filename)], with the [num_receipts] the frame was
    generated from (the two are reported together in the log line). *)
Record written_file := mkWritten {
  w_path : path;
  w_receipts : Z;
  w_rows : list item_row
}.

(** The state threaded through a run: how many draws were consumed, the
    directories made and the files written, oldest first.  The file system
    accepts every write. *)
Record gstate := mkState {
  cursor : nat;
  made_dirs : list path;
  written : list written_file
}.

Definition Gen (A : Type) : Type := entropy -> gstate -> result A * gstate.

Definition ret {A} (a : A) : Gen A := fun _ s => (Ok a, s).

Definition raise {A} (e : string) : Gen A := fun _ s => (Raise e, s).

Definition bind {A B} (m : Gen A) (f : A -> Gen B) : Gen B :=
  fun e s =>
    match m e s with
    | (Ok a, s') => f a e s'
    | (Raise err, s') => (Raise err, s')
    end.

Notation "'do' x <- m ; k" := (bind m (fun x => k))
  (at level 10, x name, m at level 100, k at level 200).

(** The next raw draw. *)
Definition next : Gen Z :=
  fun e s => (Ok (draw e (cursor s)), mkState (S (cursor s)) (made_dirs s) (written s)).

Definition now_stamp : Gen string :=
  fun e s => (Ok (stamp e (cursor s)), s).

(** [random.randint(a, b)]: ValueError on an empty range. *)
Definition randint (a b : Z) : Gen Z :=
  if b <? a then raise "empty range for randrange()"
  else do r <- next; ret (a + r mod (b - a + 1)).

(** [random.choice(seq)]: IndexError on an empty sequence. *)
Definition choice {A} (l : list A) : Gen A :=
  match l with
  | [] => raise "Cannot choose from an empty sequence"
  | x :: _ => do r <- next; ret (nth (Z.to_nat (r mod Z.of_nat (length l))) l x)
  end.

(** [random.random()]: a multiple of 2^-53 in [0, 1). *)
Definition random : Gen Q :=
  do r <- next; ret (Qmake (r mod 2 ^ 53) (2 ^ 53)).

(** [random.uniform(a, b)] is [a + (b - a) * random()]. *)
Definition uniform (a b : Q) : Gen Q :=
  do u <- random; ret (a + (b - a) * u)%Q.

(** [for _ in range(n)] collecting one value per round. *)
Fixpoint repeat_gen {A} (n : nat) (m : Gen A) : Gen (list A) :=
  match n with
  | O => ret []
  | S n' => do x <- m; do xs <- repeat_gen n' m; ret (x :: xs)
  end.

(** A [for] loop over a list that updates local variables [acc]. *)
Fixpoint for_each {A B} (l : list A) (body : A -> B -> Gen B) (acc : B) : Gen B :=
  match l with
  | [] => ret acc
  | x :: l' => do acc' <- body x acc; for_each l' body acc'
  end.

Record store_info := mkStore {
  num_cash_registers : Z;
  cash_registers : list Z
}.

(** [self]: [stores] is a dict, iterated in insertion order. *)
Record generator := mkGenerator {
  num_stores : Z;
  stores : list (Z * store_info)
}.

(** [d[k] = v] on an insertion-ordered dict. *)
Fixpoint dict_set {V} (k : Z) (v : V) (d : list (Z * V)) : list (Z * V) :=
  match d with
  | [] => [(k, v)]
  | (k', v') :: d' => if bool_decide (k' = k) then (k, v) :: d' else (k', v') :: dict_set k v d'
  end.

Section WithConfig.
Context (cfg : config).

Definition initialize_stores (self : generator) : Gen generator :=
  for_each (seqZ 1 (num_stores self))
    (fun store_id (self : generator) =>
       do n <- randint (MIN_CASH_REGISTERS_PER_STORE cfg) (MAX_CASH_REGISTERS_PER_STORE cfg);
       ret (mkGenerator (num_stores self)
              (dict_set store_id (mkStore n (seqZ 1 n)) (stores self))))
    self.

(** [DataGenerator(num_stores)] *)
Definition new (n : Z) : Gen generator := initialize_stores (mkGenerator n []).

Definition alphabet : string := "ABCDEFGHIJKLMNOPQRSTUVWXYZ0123456789".

(** [random.choices(population, k=6)] picks [population[floor(random() * n)]]. *)
Definition choices_char : Gen ascii :=
  do u <- random;
  ret (default "A"%char
         (String.get (Z.to_nat (Qfloor (u * inject_Z (Z.of_nat (String.length alphabet)))))
                     alphabet)).

Definition generate_doc_id : Gen string :=
  do timestamp <- now_stamp;
  do random_part <- repeat_gen 6 choices_char;
  ret (timestamp +:+ "_" +:+ string_of_list_ascii random_part).

Definition select_item_from_category (category : string) : Gen product :=
  match PRODUCTS_BY_CATEGORY cfg !! category with
  | None => raise "KeyError"
  | Some items => choice items
  end.

Definition calculate_discount (price : Q) : Gen Q :=
  do u <- random;
  if Qlt_le_dec u (DISCOUNT_PROBABILITY cfg) then
    do discount_percent <- uniform (DISCOUNT_RANGE cfg).1 (DISCOUNT_RANGE cfg).2;
    ret (round_2dp (price * discount_percent))
  else ret 0%Q.

Definition generate_item (doc : string) (store cash : Z) (d : Calendar.date)
    : Gen item_row :=
  do category <- choice (CATEGORIES cfg);
  do item_data <- select_item_from_category category;
  do price <- uniform (price_range item_data).1 (price_range item_data).2;
  do amount <- randint 1 5;
  do discount <- calculate_discount price;
  ret (mkItem doc (product_item item_data) category amount (round_2dp price) discount
              store cash d).

Definition generate_receipt (store cash : Z) (d : Calendar.date) : Gen (list item_row) :=
  do doc <- generate_doc_id;
  do num_items <- randint (ITEMS_PER_RECEIPT_MIN cfg) (ITEMS_PER_RECEIPT_MAX cfg);
  repeat_gen (Z.to_nat num_items) (generate_item doc store cash d).

(** The receipts of one cash register, one list of rows per receipt. *)
Definition generate_receipts (store cash : Z) (d : Calendar.date) (num_receipts : Z)
    : Gen (list (list item_row)) :=
  repeat_gen (Z.to_nat num_receipts) (generate_receipt store cash d).

Definition generate_cash_data (store cash : Z) (d : Calendar.date)
    (num_receipts : option Z) : Gen (list item_row) :=
  do n <- match num_receipts with
          | None => randint 30 (RECEIPTS_PER_CASH_PER_DAY cfg)
          | Some n => ret n
          end;
  do all_items <- generate_receipts store cash d n;
  ret (concat all_items).

(** The [target_date] argument: absent, a string, or a datetime. *)
Inductive date_arg :=
| NoDate
| DateStr (s : string)
| DateObj (d : Calendar.date).

Definition mkdir (p : path) : Gen unit :=
  fun _ s => (Ok tt, mkState (cursor s) (made_dirs s ++ [p]) (written s)).

Definition to_csv (p : path) (num_receipts : Z) (df : list item_row) : Gen unit :=
  fun _ s => (Ok tt, mkState (cursor s) (made_dirs s) (written s ++ [mkWritten p num_receipts df])).

Definition file_name_of (store cash : Z) : string :=
  pretty store +:+ "_" +:+ pretty cash +:+ ".csv".

(** The body of the inner loop, lines 143-157; the local variables are
    [(generated_files, total_items)]. *)
Definition generate_file (day_dir : path) (d : Calendar.date) (store cash : Z)
    (acc : Z * Z) : Gen (Z * Z) :=
  do num_receipts <- randint 20 (RECEIPTS_PER_CASH_PER_DAY cfg);
  do df <- generate_cash_data store cash d (Some num_receipts);
  do _ <- to_csv (day_dir ++ [file_name_of store cash]) num_receipts df;
  ret (acc.1 + 1, acc.2 + Z.of_nat (length df)).

(** Lines 118-121: [datetime.now()] for None, [strptime] for a string. *)
Definition resolve_target (target_date : date_arg) : Gen Calendar.date :=
  match target_date with
  | NoDate => fun e s => (Ok (today e), s)
  | DateStr str =>
      match Calendar.strptime str with
      | Some d => ret d
      | None => raise "time data does not match format"
      end
  | DateObj d => ret d
  end.

Definition generate_daily_files (self : generator) (target_date : date_arg) (force : bool)
    : Gen Z :=
  do target <- resolve_target target_date;
  if (Calendar.weekday target =? 6) && negb force then ret 0
  else if bool_decide (Calendar.strftime target ∈ holidays cfg) && negb force then ret 0
  else
    let date_str := Calendar.strftime target in
    let day_dir := DATA_DIR cfg ++ [date_str] in
    do _ <- mkdir day_dir;
    do acc <- for_each (stores self)
                (fun '(store_id, store_info) acc =>
                   for_each (cash_registers store_info)
                     (generate_file day_dir target store_id) acc)
                (0, 0);
    ret acc.1.

(** The [while] loop of [generate_date_range], lines 170-176, run for at most
    [fuel] rounds; the local variables are [current_date] and [total_files].
    [generate_daily_files] is called without [force]. *)
Fixpoint date_range_loop (fuel : nat) (self : generator) (current end_ : Calendar.date)
    (total_files : Z) : Gen Z :=
  match fuel with
  | O => raise "out of fuel"
  | S fuel' =>
      if Calendar.date_le current end_ then
        do files_generated <- generate_daily_files self (DateObj current) false;
        match Calendar.next_day current with
        | None => raise "date value out of range"
        | Some tomorrow =>
            date_range_loop fuel' self tomorrow end_ (total_files + files_generated)
        end
      else ret total_files
  end.

(** [generate_date_range]: one round per day from [start] to [end], and the
    test that ends the loop. *)
Definition generate_date_range (self : generator) (start_date end_date : string) : Gen Z :=
  match Calendar.strptime start_date with
  | None => raise "time data does not match format"
  | Some start =>
      match Calendar.strptime end_date with
      | None => raise "time data does not match format"
      | Some end_ =>
          date_range_loop
            (S (Z.to_nat (Calendar.toordinal end_ - Calendar.toordinal start + 1)))
            self start end_ 0
      end
  end.

End WithConfig.

End DataGenerator.

(** ** generate_sales.py, the script *)

Module GenerateSales.
Import DataGenerator.

(** The parsed command line. *)
Record args := mkArgs {
  arg_date : option string;
  arg_stores : Z;
  arg_start_date : option string;
  arg_end_date : option string;
  arg_force : bool;
  arg_verbose : bool
}.

(** [main], after [parse_args]. *)
Definition main (cfg : config) (a : args) : Gen unit :=
  do generator <- new cfg (arg_stores a);
  if DataLoader.truthy (arg_start_date a) && DataLoader.truthy (arg_end_date a) then
    do _ <- generate_date_range cfg generator (default "" (arg_start_date a))
                                (default "" (arg_end_date a));
    ret tt
  else if DataLoader.truthy (arg_date a) then
    do _ <- generate_daily_files cfg generator (DateStr (default "" (arg_date a)))
                                 (arg_force a);
    ret tt
  else
    do _ <- generate_daily_files cfg generator NoDate (arg_force a);
    ret tt.

End GenerateSales.

(** ** Conditions on the environment, used to state the properties *)

Definition no_error (o : option string) : bool :=
  match o with None => true | Some _ => false end.

(** The ledger query of [is_file_processed] goes through. *)
Definition query_ok (f : SimpleDB.faults) : bool :=
  no_error (SimpleDB.connect_error f) && no_error (SimpleDB.execute_error f 0).

(** Nothing raises on the success path of [save_file_data]: the connection,
    the DELETE, one INSERT per row, the ledger upsert and the commit. *)
Definition commits (f : SimpleDB.faults) (data : list sales_record) : bool :=
  no_error (SimpleDB.connect_error f)
  && forallb (fun k => no_error (SimpleDB.execute_error f k)) (seq 0 (length data + 2))
  && no_error (SimpleDB.commit_error f).


(** Counters are added field by field. *)
Definition add_counters (a b : DataLoader.loader) : DataLoader.loader :=
  DataLoader.mkLoader
    (DataLoader.processed_count a + DataLoader.processed_count b)
    (DataLoader.error_count a + DataLoader.error_count b)
    (DataLoader.total_records a + DataLoader.total_records b).

(** ** The transformer, row by row, in the words of the specification *)

(** Quantity coerced to integer (truncated toward zero), missing and
    non-numeric values becoming 1.  An infinite quantity in a row that has
    its keys makes the transformer reject the whole file, so the value given
    to it here is never used. *)
Definition quantity_of (c : cell) : Z :=
  match c with
  | Num (Fin q) => Z.quot (Qnum q) (Zpos (Qden q))
  | Num PosInf | Num NegInf => 1
  | NA | Text _ => 1
  end.

(** Price and discount coerced to decimal, missing and non-numeric values
    becoming 0. *)
Definition decimal_of (c : cell) : number :=
  match c with
  | Num x => x
  | _ => Fin 0
  end.

(** A row is kept when it has receipt id and item and passes quantity > 0,
    price >= 0 and discount >= 0. *)
Definition kept (r : raw_row) : bool :=
  DataLoader.has_keys r
  && (0 <? quantity_of (raw_amount r))
  && DataLoader.number_ge0 (decimal_of (raw_price r))
  && DataLoader.number_ge0 (decimal_of (raw_discount r)).

(** The persisted form of a kept row: stamped and rounded. *)
Definition cleaned (store cash : Z) (d : Calendar.date) (r : raw_row) : sales_record :=
  mkRecord (raw_doc_id r) (raw_item r) (raw_category r)
           (quantity_of (raw_amount r))
           (DataLoader.round2 (decimal_of (raw_price r)))
           (DataLoader.round2 (decimal_of (raw_discount r)))
           store cash d.






(** ** The generator: conditions used to state the properties *)

(** Modelled from the spec: the two settings that section 6 lists under the
    required configuration and that generate_sales.py never reads, the weekly
    off-day and the lower receipts-per-file bound.  config.py is not among the
    sources. *)
Record unread_settings := mkUnread {
  weekly_off_day : Z;
  receipts_per_file_min : Z
}.

(** The configuration lets no call of module [random] raise: the items range
    is not empty, there is a category, every category has products, and the
    receipts range [20, RECEIPTS_PER_CASH_PER_DAY] is not empty. *)
Definition config_ok (cfg : DataGenerator.config) : bool :=
  (DataGenerator.ITEMS_PER_RECEIPT_MIN cfg <=? DataGenerator.ITEMS_PER_RECEIPT_MAX cfg)
  && match DataGenerator.CATEGORIES cfg with [] => false | _ :: _ => true end
  && forallb (fun c => match DataGenerator.PRODUCTS_BY_CATEGORY cfg !! c with
                       | Some (_ :: _) => true
                       | _ => false
                       end) (DataGenerator.CATEGORIES cfg)
  && (20 <=? DataGenerator.RECEIPTS_PER_CASH_PER_DAY cfg).

(** The date a [target_date] argument stands for; [None] when the string does
    not parse. *)
Definition target_of (t : DataGenerator.date_arg) (e : DataGenerator.entropy)
    : option Calendar.date :=
  match t with
  | DataGenerator.NoDate => Some (DataGenerator.today e)
  | DataGenerator.DateStr s => Calendar.strptime s
  | DataGenerator.DateObj d => Some d
  end.

(** The day is skipped unless forced. *)
Definition skip_day (cfg : DataGenerator.config) (d : Calendar.date) : bool :=
  (Calendar.weekday d =? 6)
  || bool_decide (Calendar.strftime d ∈ DataGenerator.holidays cfg).

(** Every store with every one of its cash registers, in iteration order. *)
Definition pairs_of (sts : list (Z * DataGenerator.store_info)) : list (Z * Z) :=
  flat_map (fun '(store_id, info) =>
              (fun cash_id => (store_id, cash_id)) <$> DataGenerator.cash_registers info)
           sts.

Definition store_cash_pairs (self : DataGenerator.generator) : list (Z * Z) :=
  pairs_of (DataGenerator.stores self).

Definition day_dir_of (cfg : DataGenerator.config) (d : Calendar.date) : path :=
  DataGenerator.DATA_DIR cfg ++ [Calendar.strftime d].

Definition file_path_of (cfg : DataGenerator.config) (d : Calendar.date) (sc : Z * Z) : path :=
  day_dir_of cfg d ++ [DataGenerator.file_name_of sc.1 sc.2].

(** The frame of a written file is made of [w_receipts] receipts. *)
Definition made_of_receipts (w : DataGenerator.written_file) : Prop :=
  ∃ receipts : list (list DataGenerator.item_row),
    length receipts = Z.to_nat (DataGenerator.w_receipts w)
    ∧ DataGenerator.w_rows w = concat receipts.

(** A written file was generated from between 20 and
    RECEIPTS_PER_CASH_PER_DAY receipts. *)
Definition file_ok (cfg : DataGenerator.config) (w : DataGenerator.written_file) : Prop :=
  20 ≤ DataGenerator.w_receipts w ≤ DataGenerator.RECEIPTS_PER_CASH_PER_DAY cfg
  ∧ made_of_receipts w.

(** The computation returns, for every draw, and writes the files [ws] with
    [P a ws] for its value [a]; it makes no directory. *)
Definition writes {A} (m : DataGenerator.Gen A)
    (P : A -> list DataGenerator.written_file -> Prop) : Prop :=
  ∀ e s, ∃ a k ws,
    m e s = (Ok a, DataGenerator.mkState k (DataGenerator.made_dirs s)
                     (DataGenerator.written s ++ ws))
    ∧ P a ws.

(** The computation returns and writes nothing. *)
Definition returns {A} (m : DataGenerator.Gen A) (P : A -> Prop) : Prop :=
  writes m (fun a ws => ws = [] ∧ P a).


(** The store dict has one entry per key, and no store lists a cash register
    twice. *)
Definition stores_wf (sts : list (Z * DataGenerator.store_info)) : Prop :=
  NoDup sts.*1 ∧ Forall (fun x => NoDup (DataGenerator.cash_registers x.2)) sts.

(** ** Conditions used to state the further properties *)

(** The rows of table [receipts] tagged with a file name. *)
Definition rows_of (filename : string) (db : SimpleDB.database) : list SimpleDB.receipt :=
  filter (fun r => SimpleDB.file_name r = filename) (SimpleDB.receipts db).

(** Every ledger entry with status success records the number of rows that
    table [receipts] holds for its file. *)
Definition ledger_consistent (db : SimpleDB.database) : Prop :=
  ∀ filename e,
    SimpleDB.processed_files db !! filename = Some e →
    SimpleDB.status e = "success" →
    SimpleDB.records_count e = SimpleDB.Value (Z.of_nat (length (rows_of filename db))).


(** The cell holds an infinity. *)
Definition infinite (c : cell) : bool :=
  match c with
  | Num PosInf | Num NegInf => true
  | _ => false
  end.

(** A finite number is given in hundredths. *)
Definition in_hundredths (x : number) : Prop :=
  match x with
  | Fin q => Qden q = 100%positive
  | PosInf | NegInf => True
  end.

(** What every prepared row satisfies: both keys present, a positive
    quantity, price and discount not negative and rounded to hundredths. *)
Definition row_clean (r : sales_record) : Prop :=
  doc_id r ≠ NA ∧ item r ≠ NA
  ∧ 0 < amount r
  ∧ DataLoader.number_ge0 (price r) = true
  ∧ DataLoader.number_ge0 (discount r) = true
  ∧ in_hundredths (price r) ∧ in_hundredths (discount r).

(** The change of the counters from one loader state to a later one. *)
Definition counted (before after : DataLoader.loader) : Z :=
  (DataLoader.processed_count after - DataLoader.processed_count before)
  + (DataLoader.error_count after - DataLoader.error_count before).


(** The string consists of decimal digits. *)
Fixpoint all_digits (s : string) : Prop :=
  match s with
  | EmptyString => True
  | String a s' => is_digit a = true ∧ all_digits s'
  end.





(** The date is one of the calendar, from 0001-01-01 to 9999-12-31. *)
Definition on_calendar (d : Calendar.date) : Prop :=
  Calendar.valid_date (Calendar.year d) (Calendar.month d) (Calendar.day d) = true.

(** A day of the calendar from [start] to [end_], both included. *)
Definition in_days (start end_ d : Calendar.date) : Prop :=
  on_calendar d ∧ Calendar.date_le start d = true ∧ Calendar.date_le d end_ = true.

Definition last_day : Calendar.date := Calendar.mkDate 9999 12 31.

(** The path is that of the file of a store and cash register of [self] for
    day [d], and [d] is neither a Sunday nor a holiday. *)
Definition of_day (cfg : DataGenerator.config) (self : DataGenerator.generator)
    (d : Calendar.date) (p : path) : Prop :=
  skip_day cfg d = false
  ∧ ∃ sc, sc ∈ store_cash_pairs self ∧ p = file_path_of cfg d sc.

(** What the constructor records for one store: a number of cash registers
    within the configured bounds, and the cash registers 1 to that number. *)
Definition store_ok (cfg : DataGenerator.config) (x : Z * DataGenerator.store_info) : Prop :=
  DataGenerator.MIN_CASH_REGISTERS_PER_STORE cfg
    ≤ DataGenerator.num_cash_registers x.2
    ≤ DataGenerator.MAX_CASH_REGISTERS_PER_STORE cfg
  ∧ DataGenerator.cash_registers x.2 = seqZ 1 (DataGenerator.num_cash_registers x.2).

(** A row of receipt [doc] of a cash register on a day: it carries these
    four, a quantity from 1 to 5, a configured category and a product of
    that category. *)
Definition item_ok (cfg : DataGenerator.config) (doc : string) (store cash : Z)
    (d : Calendar.date) (r : DataGenerator.item_row) : Prop :=
  DataGenerator.i_doc_id r = doc
  ∧ DataGenerator.i_store_id r = store
  ∧ DataGenerator.i_cash_id r = cash
  ∧ DataGenerator.i_receipt_date r = d
  ∧ 1 ≤ DataGenerator.i_amount r ≤ 5
  ∧ DataGenerator.i_category r ∈ DataGenerator.CATEGORIES cfg
  ∧ ∃ items p,
      DataGenerator.PRODUCTS_BY_CATEGORY cfg !! DataGenerator.i_category r = Some items
      ∧ p ∈ items ∧ DataGenerator.i_item r = DataGenerator.product_item p.

(** The rows of one receipt: their number is within the configured bounds
    and they share one receipt id. *)
Definition receipt_ok (cfg : DataGenerator.config) (store cash : Z) (d : Calendar.date)
    (rows : list DataGenerator.item_row) : Prop :=
  DataGenerator.ITEMS_PER_RECEIPT_MIN cfg
    ≤ Z.of_nat (length rows)
    ≤ DataGenerator.ITEMS_PER_RECEIPT_MAX cfg
  ∧ ∃ doc, Forall (item_ok cfg doc store cash d) rows.


(** No configured price bound and no discount bound is negative. *)
Definition amounts_ok (cfg : DataGenerator.config) : bool :=
  forallb (fun c => match DataGenerator.PRODUCTS_BY_CATEGORY cfg !! c with
                    | Some items =>
                        forallb (fun p => Qle_bool 0 (DataGenerator.price_range p).1
                                          && Qle_bool 0 (DataGenerator.price_range p).2) items
                    | None => true
                    end) (DataGenerator.CATEGORIES cfg)
  && Qle_bool 0 (DataGenerator.DISCOUNT_RANGE cfg).1 && Qle_bool 0 (DataGenerator.DISCOUNT_RANGE cfg).2.

(** The three conditions of the mask of the loader, line 92 of loader.py, on
    a generated row. *)
Definition passes_mask (r : DataGenerator.item_row) : Prop :=
  0 < DataGenerator.i_amount r ∧ (0 <= DataGenerator.i_price r)%Q ∧ (0 <= DataGenerator.i_discount r)%Q.

(** ** Sample data *)

(** The row A1,Bread,Food,2,3.50,0. *)
Definition bread : raw_row :=
  mkRaw (Text "A1") (Text "Bread") (Text "Food")
        (Num (Fin 2)) (Num (Fin (7 # 2))) (Num (Fin 0)).

(** A row without a discount. *)
Definition milk : raw_row :=
  mkRaw (Text "A1") (Text "Milk") (Text "Food")
        (Num (Fin 1)) (Num (Fin (6 # 5))) NA.

(** A row without receipt id. *)
Definition no_doc_id : raw_row :=
  mkRaw NA (Text "Bread") (Text "Food") (Num (Fin 2)) (Num (Fin (7 # 2))) (Num (Fin 0)).

(** The row [bread] as prepared for 3_2.csv under 2024-03-10/. *)
Definition bread_record : sales_record :=
  mkRecord (Text "A1") (Text "Bread") (Text "Food") 2 (Fin (7 # 2)) (Fin 0) 3 2
           (Calendar.mkDate 2024 3 10).

(** A data directory with one date directory and three files. *)
Definition sample_tree : list node :=
  [Dir "data" 4096
     [Dir "2024-03-10" 4096
        [File "3_2.csv" 64
           (Some (mkFrame DataLoader.required_columns [bread; no_doc_id; milk]));
         File "sales.csv" 64
           (Some (mkFrame DataLoader.required_columns [bread]));
         File "4_1.csv" 64
           (Some (mkFrame DataLoader.required_columns [no_doc_id]))]]].

Definition sample_path : path := ["data"; "2024-03-10"; "3_2.csv"].

(** A file of two well-formed rows and one row without receipt id. *)
Definition mixed_tree : list node :=
  [Dir "2024-03-10" 4096
     [File "5_1.csv" 90
        (Some (mkFrame DataLoader.required_columns [bread; no_doc_id; bread]))]].

Definition mixed_path : path := ["2024-03-10"; "5_1.csv"].

(** The files of the scenarios of section 8: 3_2.csv with the single row
    A1,Bread,Food,2,3.50,0 and 7_1.csv without the price column. *)
Definition scenario_tree : list node :=
  [Dir "2024-03-10" 4096
     [File "3_2.csv" 61
        (Some (mkFrame ["doc_id"; "item"; "category"; "amount"; "price"; "discount"]
                 [bread]));
      File "7_1.csv" 48
        (Some (mkFrame ["doc_id"; "item"; "category"; "amount"; "discount"]
                 [bread]))]].

Definition empty_db : SimpleDB.database := SimpleDB.mkDb [] ∅.

(** The database after an earlier, successful load of an older version of
    3_2.csv that held one row. *)
Definition loaded_db : SimpleDB.database :=
  SimpleDB.mkDb
    [SimpleDB.mkReceipt (Text "A0") 3 2 (Text "Tea") (Text "Food") 1 (Fin 1) (Fin 0)
       (Calendar.mkDate 2024 3 10) "3_2.csv"]
    {[ "3_2.csv" := SimpleDB.mkProcessed "success" (SimpleDB.Value 1)
                      SimpleDB.Default SimpleDB.Default ]}.

(** The database after an earlier load of 3_2.csv that failed. *)
Definition failed_db : SimpleDB.database :=
  SimpleDB.mkDb []
    {[ "3_2.csv" := SimpleDB.mkProcessed "error" SimpleDB.Default
                      (SimpleDB.Value "connection reset") SimpleDB.Default ]}.

(** The server refuses the connection. *)
Definition unreachable : SimpleDB.faults :=
  SimpleDB.mkFaults (Some "connection refused") (fun _ => None) None None None 7.

(** Every statement goes through and the commit raises. *)
Definition commit_fails : SimpleDB.faults :=
  SimpleDB.mkFaults None (fun _ => None) (Some "server closed the connection") None None 7.

(** A configuration with one category and between 20 and 40 receipts. *)
Definition sample_config : DataGenerator.config :=
  DataGenerator.mkConfig ["data"] 2 ["Food"]
    {[ "Food" := [DataGenerator.mkProduct "Bread" (1%Q, 3%Q)] ]}
    (1 # 2)%Q ((5 # 100)%Q, (3 # 10)%Q) ["2024-01-01"] 1 2 1 3 40.

(** A configuration with ten receipts per cash register and day. *)
Definition ten_receipts_config : DataGenerator.config :=
  DataGenerator.mkConfig ["data"] 2 ["Food"]
    {[ "Food" := [DataGenerator.mkProduct "Bread" (1%Q, 3%Q)] ]}
    (1 # 2)%Q ((5 # 100)%Q, (3 # 10)%Q) ["2024-01-01"] 1 2 1 3 10.

(** Every raw draw is 0; today is Saturday 2024-01-06. *)
Definition zero_entropy : DataGenerator.entropy :=
  DataGenerator.mkEntropy (fun _ => 0) (fun _ => "240106120000")
    (Calendar.mkDate 2024 1 6).

(** One store with one cash register. *)
Definition one_till : DataGenerator.generator :=
  DataGenerator.mkGenerator 1 [(1, DataGenerator.mkStore 1 [1])].

(** Two stores with one and two cash registers. *)
Definition two_stores : DataGenerator.generator :=
  DataGenerator.mkGenerator 2
    [(1, DataGenerator.mkStore 1 [1]); (2, DataGenerator.mkStore 2 [1; 2])].

Definition start_state : DataGenerator.gstate := DataGenerator.mkState 0 [] [].

(** The files of [scenario_tree], listed in the other order. *)
Definition swapped_tree : list node :=
  [Dir "2024-03-10" 4096
     [File "7_1.csv" 48
        (Some (mkFrame ["doc_id"; "item"; "category"; "amount"; "discount"]
                 [bread]));
      File "3_2.csv" 61
        (Some (mkFrame ["doc_id"; "item"; "category"; "amount"; "price"; "discount"]
                 [bread]))]].

(** * Properties *)

(** ** The persistence gateway *)

Section Gateway.
Import SimpleDB.

Lemma substring_0_length n s : (String.length (substring 0 n s) ≤ n)%nat.
Proof.
  revert s; induction n as [|n IH]; intros [|c s]; simpl; try lia.
  specialize (IH s). lia.
Qed.


Lemma upsert_success_lookup filename n now pf :
  ∃ e, upsert_success filename n now pf !! filename = Some e
       ∧ status e = "success" ∧ records_count e = Value n.
Proof.
  unfold upsert_success.
  destruct (pf !! filename) as [old|]; rewrite lookup_insert_eq; eauto.
Qed.

Lemma insert_rows_ok f filename data : ∀ k rs,
  forallb (fun i => no_error (execute_error f i)) (seq k (length data)) = true →
  insert_rows f filename k data rs = inr (rs ++ (to_receipt filename <$> data)).
Proof.
  induction data as [|row rest IH]; intros k rs H; simpl in *.
  - by rewrite app_nil_r.
  - apply andb_true_iff in H as [H1 H2].
    destruct (execute_error f k); [discriminate|].
    rewrite IH by done. by rewrite <- app_assoc.
Qed.

Lemma insert_rows_inr f filename data : ∀ k rs rs',
  insert_rows f filename k data rs = inr rs' →
  forallb (fun i => no_error (execute_error f i)) (seq k (length data)) = true.
Proof.
  induction data as [|row rest IH]; intros k rs rs' H; simpl in *; [done|].
  destruct (execute_error f k); [discriminate|]. simpl. eauto.
Qed.

Lemma forallb_seq_split (p : nat → bool) n :
  forallb p (seq 0 (n + 2)) = p O && forallb p (seq 1 n) && p (S n).
Proof.
  replace (n + 2)%nat with (1 + (n + 1))%nat by lia.
  rewrite (seq_app 1 (n + 1)), forallb_app. simpl seq at 1. simpl forallb at 1.
  rewrite (seq_app n 1), forallb_app. simpl. by rewrite !andb_true_r, andb_assoc.
Qed.

(** The success path runs to the end exactly when nothing raises on it. *)
Lemma success_transaction_inr f filename data db :
  connect_error f = None →
  commits f data = true →
  success_transaction f filename data db =
    inr (mkDb (delete_receipts filename (receipts db) ++ (to_receipt filename <$> data))
              (upsert_success filename (Z.of_nat (length data)) (current_timestamp f)
                 (processed_files db))).
Proof.
  intros Hc H. unfold commits in H. rewrite Hc, forallb_seq_split in H. simpl in H.
  repeat (apply andb_true_iff in H as [H ?]).
  unfold success_transaction.
  destruct (execute_error f 0); [discriminate|].
  rewrite insert_rows_ok by done.
  destruct (execute_error f (S (length data))); [discriminate|].
  by destruct (commit_error f).
Qed.

Lemma success_transaction_commits f filename data db db' :
  connect_error f = None →
  success_transaction f filename data db = inr db' →
  commits f data = true.
Proof.
  intros Hc H. unfold commits. rewrite Hc, forallb_seq_split. simpl.
  unfold success_transaction in H.
  destruct (execute_error f 0); [discriminate|].
  destruct (insert_rows _ _ _ _ _) eqn:Hins; [discriminate|].
  apply insert_rows_inr in Hins. rewrite Hins.
  destruct (execute_error f (S (length data))); [discriminate|].
  by destruct (commit_error f).
Qed.


End Gateway.

(** ** The ingestion coordinator *)

Section Coordinator.
Import SimpleDB DataLoader.

Lemma select_success_iff filename db :
  select_success filename db = true ↔
  ∃ e, processed_files db !! filename = Some e ∧ status e = "success".
Proof.
  unfold select_success. destruct (processed_files db !! filename) as [e|].
  - rewrite bool_decide_eq_true. split.
    + intros Hs. by exists e.
    + by intros (e' & [= <-] & Hs).
  - split; [done|]. by intros (e' & [=] & _).
Qed.

Lemma is_file_processed_query_ok f filename db :
  query_ok f = true → is_file_processed f filename db = select_success filename db.
Proof.
  unfold query_ok, is_file_processed.
  destruct (connect_error f); [done|]. by destruct (execute_error f 0).
Qed.

Lemma is_file_processed_true f filename db :
  is_file_processed f filename db = true →
  query_ok f = true ∧ select_success filename db = true.
Proof.
  unfold query_ok, is_file_processed.
  destruct (connect_error f); [done|]. by destruct (execute_error f 0).
Qed.

(** What [process_file] does once the skip test has answered False. *)
Lemma process_file_not_skipped chk sav fs p self db :
  is_file_processed chk (path_name p) db = false →
  process_file chk sav fs p (self, db) =
    if negb (validate_csv_file fs p) then (Ok false, (self, db))
    else match read_and_prepare_data fs p with
         | None | Some [] => (Ok false, (self, db))
         | Some df =>
             match save_file_data sav (path_name p) df db with
             | (Raise e, db') => (Raise e, (self, db'))
             | (Ok true, db') =>
                 (Ok true, (mkLoader (processed_count self + 1) (error_count self)
                              (total_records self + Z.of_nat (length df)), db'))
             | (Ok false, db') =>
                 (Ok false, (mkLoader (processed_count self) (error_count self + 1)
                               (total_records self), db'))
             end
         end.
Proof. intros H. unfold process_file. by rewrite H. Qed.

(** C3.  When the ledger query goes through, [is_file_processed] answers True
    exactly when the ledger has a row for the file name with status success.
    A row with status error gives False, and then [process_file] does not
    skip: a valid, non-empty file is handed to [save_file_data] again.  A
    failing query gives False. *)
Theorem is_file_processed_iff_success f filename db :
  (query_ok f = true →
     (is_file_processed f filename db = true ↔
      ∃ e, processed_files db !! filename = Some e ∧ status e = "success"))
  ∧ (∀ e, processed_files db !! filename = Some e → status e = "error" →
       is_file_processed f filename db = false
       ∧ ∀ sav fs p self r df,
           path_name p = filename →
           validate_csv_file fs p = true →
           read_and_prepare_data fs p = Some (r :: df) →
           let out := process_file f sav fs p (self, db) in
           (out.1, out.2.2) = save_file_data sav filename (r :: df) db)
  ∧ (query_ok f = false → is_file_processed f filename db = false).
Proof.
  split; [|split].
  - intros Hq. rewrite is_file_processed_query_ok by done. apply select_success_iff.
  - intros e He Hs.
    assert (is_file_processed f filename db = false) as Hno.
    { destruct (is_file_processed f filename db) eqn:H; [|done].
      apply is_file_processed_true in H as [_ H].
      apply select_success_iff in H as (e' & He' & Hs'). congruence. }
    split; [done|].
    intros sav fs p self r df <- Hv Hr. cbv zeta.
    rewrite process_file_not_skipped by done. rewrite Hv, Hr. simpl.
    destruct (save_file_data sav (path_name p) (r :: df) db) as [[[|]|] db']; done.
  - unfold query_ok, is_file_processed.
    destruct (connect_error f); [done|]. by destruct (execute_error f 0).
Qed.

(** C1, as amended.  When the ledger query goes through and the ledger has
    status success for the file name, [process_file] returns True and leaves
    the database and the loader as they were, whatever the file holds and
    whatever the server would do on a second connection: the file is not read
    and nothing is written. *)
Theorem process_file_skip_noop chk sav fs p self db e :
  query_ok chk = true →
  processed_files db !! path_name p = Some e →
  status e = "success" →
  process_file chk sav fs p (self, db) = (Ok true, (self, db)).
Proof.
  intros Hq He Hs. unfold process_file.
  rewrite is_file_processed_query_ok by done.
  assert (select_success (path_name p) db = true) as ->; [|done].
  apply select_success_iff. eauto.
Qed.

(** C1, as stated, fails: with status success in the ledger but the ledger
    query failing, the file is read again and its rows are written again. *)
Lemma process_file_success_reprocessed :
  ¬ (∀ chk sav fs p self db e,
       processed_files db !! path_name p = Some e →
       status e = "success" →
       process_file chk sav fs p (self, db) = (Ok true, (self, db))).
Proof.
  intros H.
  specialize (H unreachable (no_faults 8) sample_tree sample_path init loaded_db
                (mkProcessed "success" (Value 1) Default Default) eq_refl eq_refl).
  apply (f_equal (fun out => length (receipts out.2.2))) in H.
  vm_compute in H. discriminate.
Qed.

(** C9.  Two runs of [main] on the same files, the same database and the same
    server behaviour, with the same date, file and verbose arguments, one
    with the force flag and one without it, end with the same outcome, the
    same counters and the same database: [main] never looks at the flag. *)
Theorem main_force_irrelevant env fs data_dir a1 a2 db :
  date a1 = date a2 →
  file a1 = file a2 →
  verbose a1 = verbose a2 →
  force a1 = true →
  force a2 = false →
  main env fs data_dir a1 db = main env fs data_dir a2 db.
Proof.
  intros Hd Hf _ _ _. unfold main. rewrite Hd, Hf. reflexivity.
Qed.

End Coordinator.

Section Counters.
Import SimpleDB DataLoader.

Lemma add_counters_init self : add_counters self init = self.
Proof. destruct self. unfold add_counters. simpl. f_equal; lia. Qed.

(** A call on any loader does to the database what it does on a fresh
    loader, and adds to the counters what it gives a fresh loader. *)
Lemma process_file_frame chk sav fs p self db :
  process_file chk sav fs p (self, db) =
    let out := process_file chk sav fs p (init, db) in
    (out.1, (add_counters self out.2.1, out.2.2)).
Proof.
  unfold process_file.
  destruct (is_file_processed chk (path_name p) db);
    [by rewrite add_counters_init|].
  destruct (negb (validate_csv_file fs p)); [by rewrite add_counters_init|].
  destruct (read_and_prepare_data fs p) as [[|r df]|];
    try by rewrite add_counters_init.
  destruct (save_file_data sav (path_name p) (r :: df) db) as [[[|]|e] db'];
    cbv zeta; simpl fst; simpl snd; unfold add_counters; simpl;
    destruct self; simpl; repeat f_equal; lia.
Qed.

Lemma add_counters_assoc a b c :
  add_counters (add_counters a b) c = add_counters a (add_counters b c).
Proof. unfold add_counters. simpl. f_equal; lia. Qed.

Lemma process_each_frame env fs files : ∀ i self db,
  process_each env i fs files (self, db) =
    let out := process_each env i fs files (init, db) in
    (out.1, (add_counters self out.2.1, out.2.2)).
Proof.
  induction files as [|f rest IH]; intros i self db; cbn [process_each].
  - cbv zeta. simpl. by rewrite add_counters_init.
  - rewrite process_file_frame. cbv zeta.
    destruct (process_file _ _ fs f (init, db)) as [[b|e] [l1 db1]];
      cbn [fst snd]; [|done].
    rewrite IH. rewrite (IH (S i) l1 db1). cbv zeta.
    destruct (process_each env _ fs rest (init, db1)) as [r [l2 db2]]; cbn [fst snd].
    by rewrite add_counters_assoc.
Qed.

(** C4, at a failing input.  A file that the validator rejects (sales.csv does
    not have the form {digits}_{digits}.csv) and a file whose prepared frame is
    empty (the only row of 4_1.csv has no doc_id) both make [process_file]
    return False without touching the database, and the error counter stays
    at 0. *)
Theorem process_file_rejected_not_counted :
  validate_csv_file sample_tree ["data"; "2024-03-10"; "sales.csv"] = false
  ∧ process_file (no_faults 1) (no_faults 2) sample_tree
      ["data"; "2024-03-10"; "sales.csv"] (init, empty_db)
    = (Ok false, (mkLoader 0 0 0, empty_db))
  ∧ read_and_prepare_data sample_tree ["data"; "2024-03-10"; "4_1.csv"] = Some []
  ∧ process_file (no_faults 1) (no_faults 2) sample_tree
      ["data"; "2024-03-10"; "4_1.csv"] (init, empty_db)
    = (Ok false, (mkLoader 0 0 0, empty_db)).
Proof. repeat split; vm_compute; reflexivity. Qed.

(** The same for every rejected file: the counters are those before the call. *)
Lemma process_file_rejected_unchanged chk sav fs p self db :
  is_file_processed chk (path_name p) db = false →
  validate_csv_file fs p = false
  ∨ read_and_prepare_data fs p = None
  ∨ read_and_prepare_data fs p = Some [] →
  process_file chk sav fs p (self, db) = (Ok false, (self, db)).
Proof.
  intros Hp H. rewrite process_file_not_skipped by done.
  destruct (validate_csv_file fs p); simpl; [|done].
  destruct H as [H|[->| ->]]; done.
Qed.

(** C10, as amended.  A skipped file makes [process_file] return True with the
    three counters (and the database) unchanged.  The counters start at 0 and
    every call adds to them: a file handed to [save_file_data] adds 1 to
    processed_count and its number of rows to total_records when the save
    returned True, and 1 to error_count when it returned False; over a run of
    calls on one loader the counters are those it had before plus those a
    fresh loader would show. *)
Theorem process_file_counters chk sav fs p self db :
  let out := process_file chk sav fs p (self, db) in
  (is_file_processed chk (path_name p) db = true → out = (Ok true, (self, db)))
  ∧ init = mkLoader 0 0 0
  ∧ (∀ r df db',
       is_file_processed chk (path_name p) db = false →
       validate_csv_file fs p = true →
       read_and_prepare_data fs p = Some (r :: df) →
       (save_file_data sav (path_name p) (r :: df) db = (Ok true, db') →
        out = (Ok true,
               (add_counters self (mkLoader 1 0 (Z.of_nat (length (r :: df)))), db')))
       ∧ (save_file_data sav (path_name p) (r :: df) db = (Ok false, db') →
          out = (Ok false, (add_counters self (mkLoader 0 1 0), db'))))
  ∧ (∀ env i files,
       let run := process_each env i fs files (self, db) in
       let fresh := process_each env i fs files (init, db) in
       run = (fresh.1, (add_counters self fresh.2.1, fresh.2.2))).
Proof.
  cbv zeta. split; [|split; [done|split]].
  - intros H. unfold process_file. by rewrite H.
  - intros r df db' Hp Hv Hr.
    rewrite process_file_not_skipped by done. rewrite Hv, Hr. simpl negb. cbv iota.
    split; intros ->; unfold add_counters;
      cbn [processed_count error_count total_records]; repeat f_equal; lia.
  - intros env i files. apply process_each_frame.
Qed.

(** C10, as stated, fails: a file that was not persisted (the commit failed,
    [save_file_data] returned False, table [receipts] is as before) still
    adds to the statistics, through error_count. *)
Lemma not_persisted_file_counted :
  ¬ (∀ chk sav fs p self db,
       let out := process_file chk sav fs p (self, db) in
       out.2.1 ≠ self → out.1 = Ok true).
Proof.
  intros H.
  specialize (H (no_faults 1) commit_fails sample_tree sample_path init empty_db).
  cbv zeta in H.
  assert ((process_file (no_faults 1) commit_fails sample_tree sample_path
             (init, empty_db)).1 = Ok false) as E1 by (vm_compute; reflexivity).
  assert ((process_file (no_faults 1) commit_fails sample_tree sample_path
             (init, empty_db)).2.1 = mkLoader 0 1 0) as E2 by (vm_compute; reflexivity).
  rewrite E1, E2 in H. discriminate H. discriminate.
Qed.

End Counters.

(** ** The record transformer *)

Section Transformer.
Import SimpleDB DataLoader.

Lemma convert_row_cleaned store cash d r t :
  has_keys r = true →
  convert_row store cash d (fillna_discount r) = Some t →
  round_row t = cleaned store cash d r ∧ in_range_row t = kept r.
Proof.
  intros Hk. unfold convert_row, fillna_discount, cleaned, kept, in_range_row, round_row.
  rewrite Hk. destruct r as [di it ca am pr ds]; simpl.
  destruct am as [|[q| |]|s]; simpl; intros Ht; try discriminate Ht;
    injection Ht as <-; simpl; split; by destruct pr, ds.
Qed.

Lemma missing_key_not_kept r : has_keys r = false → kept r = false.
Proof. intros H. unfold kept. by rewrite H. Qed.

(** The column operations of lines 83-101 agree with the row-wise reading. *)
Lemma prepare_rows store cash d : ∀ l typed,
  mapM (convert_row store cash d)
       (fillna_discount <$> filter (fun r => has_keys r = true) l) = Some typed →
  round_row <$> filter (fun r => in_range_row r = true) typed
  = cleaned store cash d <$> filter (fun r => kept r = true) l.
Proof.
  induction l as [|r l IH]; intros typed H.
  - simpl in H. injection H as <-. done.
  - rewrite filter_cons in H. rewrite (filter_cons _ r l).
    destruct (decide (has_keys r = true)) as [Hk|Hk].
    + rewrite fmap_cons in H. apply mapM_Some in H.
      apply Forall2_cons_inv_l in H as (t & typed' & Ht & Hrest & ->).
      apply mapM_Some in Hrest. specialize (IH _ Hrest).
      destruct (convert_row_cleaned _ _ _ _ _ Hk Ht) as [Hc Hi].
      rewrite filter_cons. rewrite Hi.
      destruct (decide (kept r = true)); [|done].
      rewrite !fmap_cons. by rewrite Hc, IH.
    + apply not_true_is_false in Hk.
      rewrite missing_key_not_kept by done.
      destruct (decide (false = true)); [done|]. by apply IH.
Qed.






(** When [save_file_data] returns True the database is the committed one. *)
Lemma save_file_data_true f filename data db db' :
  save_file_data f filename data db = (Ok true, db') →
  db' = mkDb (delete_receipts filename (receipts db) ++ (to_receipt filename <$> data))
             (upsert_success filename (Z.of_nat (length data)) (current_timestamp f)
                (processed_files db)).
Proof.
  unfold save_file_data.
  destruct (connect_error f) eqn:Hc; [discriminate|].
  destruct (success_transaction f filename data db) as [e|d] eqn:Ht.
  - unfold record_error. destruct (rollback_error f); discriminate.
  - intros [= <-].
    pose proof (success_transaction_commits _ _ _ _ _ Hc Ht) as Hcm.
    rewrite (success_transaction_inr _ _ _ _ Hc Hcm) in Ht. by injection Ht as <-.
Qed.


End Transformer.

(** ** File discovery *)

Section Discovery.
Import DataLoader.

Global Instance key_le_total : Total key_le.
Proof.
  intros [a1 b1] [a2 b2]. unfold key_le. simpl.
  destruct (decide (a1 = a2)) as [->|Hne].
  - destruct (total String.le b1 b2); [left|right]; right; done.
  - destruct (total String.le a1 a2); [left|right]; left; split; congruence.
Qed.

Global Instance key_le_trans : Transitive key_le.
Proof.
  intros [a1 b1] [a2 b2] [a3 b3]. unfold key_le. simpl.
  intros [[Hn1 H1]|[-> H1]] [[Hn2 H2]|[-> H2]].
  - left. split; [|by etrans].
    intros ->. apply Hn1. by apply (anti_symm String.le).
  - left. done.
  - left. done.
  - right. split; [done|by etrans].
Qed.

Global Instance path_le_total : Total path_le.
Proof. intros p q. apply key_le_total. Qed.

Global Instance path_le_trans : Transitive path_le.
Proof. intros p q r. apply key_le_trans. Qed.

Lemma insert_sorted_perm x l : insert_sorted x l ≡ₚ x :: l.
Proof.
  induction l as [|y l IH]; simpl; [done|].
  destruct (decide (path_le x y)); [done|].
  rewrite IH. apply Permutation_swap.
Qed.

Lemma sort_paths_perm l : sort_paths l ≡ₚ l.
Proof.
  induction l as [|x l IH]; simpl; [done|].
  by rewrite insert_sorted_perm, IH.
Qed.

Lemma insert_sorted_hd a x l :
  path_le a x → HdRel path_le a l → HdRel path_le a (insert_sorted x l).
Proof.
  intros Hax Hal. destruct l as [|y l]; simpl; [by constructor|].
  destruct (decide (path_le x y)); constructor; [done|].
  by apply HdRel_inv in Hal.
Qed.

Lemma insert_sorted_sorted x l : Sorted path_le l → Sorted path_le (insert_sorted x l).
Proof.
  induction 1 as [|y l Hs IH Hhd]; simpl; [by repeat constructor|].
  destruct (decide (path_le x y)) as [Hxy|Hxy].
  - constructor; [by constructor|by constructor].
  - constructor; [done|].
    apply insert_sorted_hd; [|done].
    by destruct (total path_le x y).
Qed.

Lemma sort_paths_sorted l : Sorted path_le (sort_paths l).
Proof.
  induction l as [|x l IH]; simpl; [constructor|by apply insert_sorted_sorted].
Qed.


End Discovery.

(** ** The generator *)

Section Generation.
Import DataGenerator.

Lemma writes_ret {A} (a : A) (P : A → list written_file → Prop) :
  P a [] → writes (ret a) P.
Proof.
  intros H e s. exists a, (cursor s), []. rewrite app_nil_r. by destruct s.
Qed.

Lemma writes_bind {A B} (m : Gen A) (f : A → Gen B) P Q :
  writes m P →
  (∀ a ws1, P a ws1 → writes (f a) (fun b ws2 => Q b (ws1 ++ ws2))) →
  writes (bind m f) Q.
Proof.
  intros Hm Hf e s. destruct (Hm e s) as (a & k & ws1 & Em & HP).
  destruct (Hf a ws1 HP e (mkState k (made_dirs s) (written s ++ ws1)))
    as (b & k' & ws2 & Ef & HQ).
  exists b, k', (ws1 ++ ws2). unfold bind. rewrite Em, Ef. simpl.
  by rewrite app_assoc.
Qed.

Lemma writes_mono {A} (m : Gen A) (P Q : A → list written_file → Prop) :
  writes m P → (∀ a ws, P a ws → Q a ws) → writes m Q.
Proof.
  intros Hm HPQ e s. destruct (Hm e s) as (a & k & ws & E & HP). eauto 6.
Qed.

Lemma returns_bind {A B} (m : Gen A) (f : A → Gen B) P Q :
  returns m P → (∀ a, P a → writes (f a) Q) → writes (bind m f) Q.
Proof.
  intros Hm Hf. eapply writes_bind; [exact Hm|].
  intros a ws1 [-> HP]. simpl. exact (Hf a HP).
Qed.

Lemma returns_ret {A} (a : A) (P : A → Prop) : P a → returns (ret a) P.
Proof. intros H. by apply writes_ret. Qed.

Lemma returns_next : returns next (fun _ => True).
Proof.
  intros e s. exists (draw e (cursor s)), (S (cursor s)), [].
  by rewrite app_nil_r.
Qed.

Lemma returns_randint a b : a ≤ b → returns (randint a b) (fun x => a ≤ x ≤ b).
Proof.
  intros Hab. unfold randint.
  destruct (b <? a) eqn:E; [apply Z.ltb_lt in E; lia|].
  eapply returns_bind; [apply returns_next|].
  intros r _. apply returns_ret.
  pose proof (Z.mod_pos_bound r (b - a + 1)). lia.
Qed.

Lemma returns_choice {A} (l : list A) : l ≠ [] → returns (choice l) (fun x => x ∈ l).
Proof.
  intros Hl. destruct l as [|x l]; [done|]. unfold choice.
  eapply returns_bind; [apply returns_next|].
  intros r _. apply returns_ret.
  apply list_elem_of_In, nth_In.
  pose proof (Z.mod_pos_bound r (Z.of_nat (length (x :: l)))). simpl in *. lia.
Qed.

Lemma returns_random : returns random (fun _ => True).
Proof.
  unfold random. eapply returns_bind; [apply returns_next|].
  intros r _. by apply returns_ret.
Qed.

Lemma returns_uniform a b : returns (uniform a b) (fun _ => True).
Proof.
  unfold uniform. eapply returns_bind; [apply returns_random|].
  intros u _. by apply returns_ret.
Qed.

Lemma returns_repeat {A} (m : Gen A) n :
  returns m (fun _ => True) → returns (repeat_gen n m) (fun l => length l = n).
Proof.
  intros Hm. induction n as [|n IH]; simpl.
  - by apply returns_ret.
  - eapply returns_bind; [exact Hm|]. intros x _.
    eapply returns_bind; [exact IH|]. intros xs Hxs.
    apply returns_ret. simpl. by rewrite Hxs.
Qed.

Section WithConfig.
Context (cfg : config) (Hcfg : config_ok cfg = true).

Lemma config_ok_items : ITEMS_PER_RECEIPT_MIN cfg ≤ ITEMS_PER_RECEIPT_MAX cfg.
Proof using Hcfg.
  unfold config_ok in Hcfg. repeat (apply andb_true_iff in Hcfg as [Hcfg ?]).
  by apply Z.leb_le.
Qed.

Lemma config_ok_receipts : 20 ≤ RECEIPTS_PER_CASH_PER_DAY cfg.
Proof using Hcfg.
  unfold config_ok in Hcfg. repeat (apply andb_true_iff in Hcfg as [Hcfg ?]).
  by apply Z.leb_le.
Qed.

Lemma config_ok_categories : CATEGORIES cfg ≠ [].
Proof using Hcfg.
  unfold config_ok in Hcfg. repeat (apply andb_true_iff in Hcfg as [Hcfg ?]).
  by destruct (CATEGORIES cfg).
Qed.

Lemma config_ok_products c :
  c ∈ CATEGORIES cfg → ∃ items, PRODUCTS_BY_CATEGORY cfg !! c = Some items ∧ items ≠ [].
Proof using Hcfg.
  unfold config_ok in Hcfg. repeat (apply andb_true_iff in Hcfg as [Hcfg ?]).
  intros Hc.
  match goal with H : forallb _ _ = true |- _ => rewrite forallb_forall in H;
    specialize (H c (proj1 (list_elem_of_In _ _) Hc)) end.
  destruct (PRODUCTS_BY_CATEGORY cfg !! c) as [[|x items]|]; try done.
  by exists (x :: items).
Qed.

Lemma returns_now_stamp : returns now_stamp (fun _ => True).
Proof.
  intros e s. exists (stamp e (cursor s)), (cursor s), [].
  rewrite app_nil_r. by destruct s.
Qed.

Lemma returns_generate_doc_id : returns generate_doc_id (fun _ => True).
Proof.
  unfold generate_doc_id.
  eapply returns_bind; [apply returns_now_stamp|].
  intros t _. eapply returns_bind.
  { apply returns_repeat. unfold choices_char.
    eapply returns_bind; [apply returns_random|]. intros u _. by apply returns_ret. }
  intros l _. by apply returns_ret.
Qed.

Lemma returns_calculate_discount price :
  returns (calculate_discount cfg price) (fun _ => True).
Proof.
  unfold calculate_discount. eapply returns_bind; [apply returns_random|].
  intros u _. destruct (Qlt_le_dec u (DISCOUNT_PROBABILITY cfg)).
  - eapply returns_bind; [apply returns_uniform|]. intros pc _. by apply returns_ret.
  - by apply returns_ret.
Qed.

Lemma returns_select_item c :
  c ∈ CATEGORIES cfg → returns (select_item_from_category cfg c) (fun _ => True).
Proof using Hcfg.
  intros Hc. unfold select_item_from_category.
  destruct (config_ok_products c Hc) as (items & -> & Hne).
  eapply writes_mono; [apply returns_choice, Hne|]. by intros a ws [-> _].
Qed.

Lemma returns_generate_item doc store cash d :
  returns (generate_item cfg doc store cash d) (fun _ => True).
Proof using Hcfg.
  unfold generate_item.
  eapply returns_bind; [apply returns_choice, config_ok_categories|].
  intros c Hc. eapply returns_bind; [by apply returns_select_item|].
  intros it _. eapply returns_bind; [apply returns_uniform|].
  intros pr _. eapply returns_bind; [apply (returns_randint 1 5); lia|].
  intros am _. eapply returns_bind; [apply returns_calculate_discount|].
  intros ds _. by apply returns_ret.
Qed.

Lemma returns_generate_receipt store cash d :
  returns (generate_receipt cfg store cash d) (fun _ => True).
Proof using Hcfg.
  unfold generate_receipt.
  eapply returns_bind; [apply returns_generate_doc_id|]. intros doc _.
  eapply returns_bind; [apply returns_randint, config_ok_items|]. intros n _.
  eapply writes_mono; [apply returns_repeat, returns_generate_item|].
  intros l ws [-> _]. done.
Qed.

(** With [num_receipts] given, [generate_cash_data] generates that many
    receipts and returns their rows. *)
Lemma returns_generate_cash_data store cash d n :
  returns (generate_cash_data cfg store cash d (Some n))
    (fun rows => ∃ receipts : list (list item_row),
                   length receipts = Z.to_nat n ∧ rows = concat receipts).
Proof using Hcfg.
  unfold generate_cash_data.
  eapply returns_bind; [by apply (returns_ret n (fun x => x = n))|]. intros ? ->.
  eapply returns_bind.
  { unfold generate_receipts. apply returns_repeat, returns_generate_receipt. }
  intros rs Hrs. apply returns_ret. by exists rs.
Qed.

Lemma writes_to_csv p n df :
  writes (to_csv p n df) (fun _ ws => ws = [mkWritten p n df]).
Proof. intros e s. by exists tt, (cursor s), [mkWritten p n df]. Qed.

(** One round of the inner loop writes one file, named after the store and
    the cash register, from between 20 and RECEIPTS_PER_CASH_PER_DAY
    receipts. *)
Lemma writes_generate_file day_dir d store cash acc :
  writes (generate_file cfg day_dir d store cash acc)
    (fun acc' ws =>
       acc'.1 = acc.1 + 1
       ∧ ∃ w, ws = [w]
           ∧ w_path w = day_dir ++ [file_name_of store cash]
           ∧ 20 ≤ w_receipts w ≤ RECEIPTS_PER_CASH_PER_DAY cfg
           ∧ made_of_receipts w).
Proof using Hcfg.
  unfold generate_file.
  eapply returns_bind; [apply returns_randint, config_ok_receipts|]. intros n Hn.
  eapply returns_bind; [apply returns_generate_cash_data|]. intros df Hdf.
  eapply writes_bind; [apply writes_to_csv|]. intros [] ws1 ->.
  apply writes_ret. split; [done|].
  eexists. split; [by rewrite app_nil_r|]. done.
Qed.

End WithConfig.

(** A loop keeps an invariant [R] over the elements done so far, the local
    variables and the files written so far. *)
Lemma writes_for_each {A B} (body : A → B → Gen B)
    (R : list A → B → list written_file → Prop) (l : list A) :
  (∀ done x acc ws, R done acc ws →
     writes (body x acc) (fun acc' ws' => R (done ++ [x]) acc' (ws ++ ws'))) →
  ∀ done acc ws, R done acc ws →
    writes (for_each l body acc) (fun acc' ws' => R (done ++ l) acc' (ws ++ ws')).
Proof.
  intros Hbody. induction l as [|x l IH]; intros done acc ws HR; simpl.
  - apply writes_ret. by rewrite !app_nil_r.
  - eapply writes_bind; [by apply Hbody|].
    intros acc1 ws1 H1. simpl in H1.
    eapply writes_mono; [by apply IH|].
    intros acc2 ws2 H2. simpl in H2.
    by rewrite <- !app_assoc in H2.
Qed.

Section Daily.
Context (cfg : config) (Hcfg : config_ok cfg = true).

Lemma writes_cash_loop day_dir d store cashes acc0 :
  writes (for_each cashes (generate_file cfg day_dir d store) acc0)
    (fun acc ws =>
       acc.1 = acc0.1 + Z.of_nat (length cashes)
       ∧ w_path <$> ws = (fun c => day_dir ++ [file_name_of store c]) <$> cashes
       ∧ Forall (file_ok cfg) ws).
Proof using Hcfg.
  pose (R := fun (done : list Z) (acc : Z * Z) (ws : list written_file) =>
               acc.1 = acc0.1 + Z.of_nat (length done)
               ∧ w_path <$> ws = (fun c => day_dir ++ [file_name_of store c]) <$> done
               ∧ Forall (file_ok cfg) ws).
  eapply writes_mono.
  - apply (writes_for_each _ R cashes) with (done := []) (acc := acc0) (ws := []).
    + intros done c acc ws (Ha & Hp & Hok).
      eapply writes_mono; [by apply writes_generate_file|].
      intros acc' ws' (Ha' & w & -> & Hw & Hr & Hm). unfold R.
      rewrite length_app, !fmap_app, Forall_app, Hp. simpl.
      split; [lia|]. split; [by rewrite Hw|]. split; [done|].
      apply Forall_singleton. by split.
    + unfold R. simpl. split; [lia|]. by split.
  - intros acc ws H. exact H.
Qed.

Lemma writes_store_loop day_dir d sts :
  writes (for_each sts
            (fun '(store_id, store_info) acc =>
               for_each (cash_registers store_info)
                 (generate_file cfg day_dir d store_id) acc)
            (0, 0))
    (fun acc ws =>
       acc.1 = Z.of_nat (length (pairs_of sts))
       ∧ w_path <$> ws = (fun sc => day_dir ++ [file_name_of sc.1 sc.2]) <$> pairs_of sts
       ∧ Forall (file_ok cfg) ws).
Proof using Hcfg.
  pose (R := fun (done : list (Z * store_info)) (acc : Z * Z) (ws : list written_file) =>
               acc.1 = Z.of_nat (length (pairs_of done))
               ∧ w_path <$> ws
                 = (fun sc => day_dir ++ [file_name_of sc.1 sc.2]) <$> pairs_of done
               ∧ Forall (file_ok cfg) ws).
  eapply writes_mono.
  - apply (writes_for_each _ R sts) with (done := []) (acc := (0, 0)) (ws := []).
    + intros done [store info] acc ws (Ha & Hp & Hok).
      eapply writes_mono; [apply writes_cash_loop|].
      intros acc' ws' (Ha' & Hp' & Hok'). unfold R, pairs_of.
      rewrite flat_map_app, length_app, !fmap_app, Forall_app, Hp, Hp'. simpl.
      rewrite app_nil_r, length_fmap, <- list_fmap_compose.
      split; [unfold pairs_of in Ha; lia|]. by split.
    + unfold R. simpl. by split.
  - intros acc ws H. exact H.
Qed.

Lemma resolve_target_of target e s d :
  target_of target e = Some d → resolve_target target e s = (Ok d, s).
Proof.
  destruct target as [|str|d']; simpl; intros Ht.
  - by injection Ht as <-.
  - by rewrite Ht.
  - by injection Ht as <-.
Qed.

(** A day that is not skipped: the run returns the number of pairs, makes the
    day's directory and writes one file per pair, in order. *)
Lemma generate_daily_files_runs self target force e s d :
  target_of target e = Some d →
  force = true ∨ skip_day cfg d = false →
  ∃ k ws,
    generate_daily_files cfg self target force e s
    = (Ok (Z.of_nat (length (store_cash_pairs self))),
       mkState k (made_dirs s ++ [day_dir_of cfg d]) (written s ++ ws))
    ∧ w_path <$> ws = file_path_of cfg d <$> store_cash_pairs self
    ∧ Forall (file_ok cfg) ws.
Proof using Hcfg.
  intros Ht Hrun.
  assert ((Calendar.weekday d =? 6) && negb force = false
          ∧ bool_decide (Calendar.strftime d ∈ holidays cfg) && negb force = false)
    as [H1 H2].
  { destruct Hrun as [->|Hs]; [by rewrite !andb_false_r|].
    unfold skip_day in Hs. apply orb_false_iff in Hs as [-> ->]. done. }
  destruct (writes_store_loop (day_dir_of cfg d) d (stores self) e
              (mkState (cursor s) (made_dirs s ++ [day_dir_of cfg d]) (written s)))
    as (acc & k & ws & Hloop & Hacc & Hp & Hok).
  exists k, ws. split; [|done].
  unfold generate_daily_files, bind.
  rewrite (resolve_target_of _ _ s _ Ht).
  rewrite H1, H2. unfold mkdir at 1. fold (day_dir_of cfg d).
  unfold bind in Hloop. rewrite Hloop. unfold ret. simpl. by rewrite Hacc.
Qed.

(** A day that is skipped: nothing is drawn, made or written. *)
Lemma generate_daily_files_skip self target e s d :
  target_of target e = Some d →
  skip_day cfg d = true →
  generate_daily_files cfg self target false e s = (Ok 0, s).
Proof.
  intros Ht Hs. unfold generate_daily_files, bind.
  rewrite (resolve_target_of _ _ s _ Ht).
  unfold skip_day in Hs. rewrite !andb_true_r.
  destruct (Calendar.weekday d =? 6); [done|]. simpl in Hs. by rewrite Hs.
Qed.

End Daily.

(** *** File names tell the pairs apart *)

Lemma app_String c s t : String c s +:+ t = String c (s +:+ t).
Proof. reflexivity. Qed.


Lemma pretty_N_char_digit x : is_digit (pretty_N_char x) = true.
Proof. unfold pretty_N_char. by repeat case_match. Qed.






(** *** The stores built by the constructor *)

Lemma dict_set_keys {V} k (v : V) d :
  (dict_set k v d).*1 = if bool_decide (k ∈ d.*1) then d.*1 else d.*1 ++ [k].
Proof.
  induction d as [|[k' v'] d IH]; [done|].
  cbn [dict_set]. rewrite (fmap_cons fst (k', v') d). cbn [fst].
  destruct (decide (k' = k)) as [->|Hne].
  - rewrite (bool_decide_eq_true_2 (k = k)) by done.
    rewrite bool_decide_eq_true_2; [done|]. apply list_elem_of_here.
  - rewrite (bool_decide_eq_false_2 (k' = k)) by done.
    rewrite fmap_cons, IH. cbn [fst].
    destruct (decide (k ∈ d.*1)) as [Hin|Hin].
    + rewrite (bool_decide_eq_true_2 _ Hin).
      rewrite bool_decide_eq_true_2; [done|]. by apply list_elem_of_further.
    + rewrite (bool_decide_eq_false_2 _ Hin).
      rewrite bool_decide_eq_false_2; [done|].
      intros [->|?]%elem_of_cons; done.
Qed.

Lemma dict_set_elem {V} k (v : V) d x :
  x ∈ dict_set k v d → x = (k, v) ∨ x ∈ d.
Proof.
  induction d as [|[k' v'] d IH]; simpl.
  - intros ->%list_elem_of_singleton. by left.
  - destruct (bool_decide (k' = k)).
    + intros [->|?]%elem_of_cons; [by left|right; by apply list_elem_of_further].
    + intros [->|H']%elem_of_cons; [right; apply list_elem_of_here|].
      destruct (IH H') as [->|?]; [by left|right; by apply list_elem_of_further].
Qed.

Lemma dict_set_wf k n sts :
  stores_wf sts → stores_wf (dict_set k (mkStore n (seqZ 1 n)) sts).
Proof.
  intros [Hk Hc]. split.
  - rewrite dict_set_keys. case_bool_decide as Hin; [done|].
    apply NoDup_app. split; [done|]. split; [|apply NoDup_singleton].
    intros x Hx ->%list_elem_of_singleton. done.
  - apply Forall_forall. intros x [->|Hx]%dict_set_elem.
    + simpl. apply NoDup_seqZ.
    + by apply (proj1 (Forall_forall _ _) Hc).
Qed.

Lemma pairs_of_fst sts sc : sc ∈ pairs_of sts → sc.1 ∈ sts.*1.
Proof.
  unfold pairs_of. intros H. apply list_elem_of_In, in_flat_map in H.
  destruct H as ([k info] & Hin & Hsc).
  apply list_elem_of_In, list_elem_of_fmap in Hsc as (c & -> & _). simpl.
  apply list_elem_of_fmap. exists (k, info). split; [done|by apply list_elem_of_In].
Qed.

Lemma stores_wf_pairs sts : stores_wf sts → NoDup (pairs_of sts).
Proof.
  intros [Hk Hc]. induction sts as [|[k info] sts IH]; [constructor|].
  unfold pairs_of. simpl. fold (pairs_of sts).
  apply NoDup_cons in Hk as [Hk1 Hk2]. apply Forall_cons in Hc as [Hc1 Hc2].
  apply NoDup_app. split; [|split; [|by apply IH]].
  - apply NoDup_fmap_2; [|done]. by intros c c' [= ->].
  - intros sc (c & -> & _)%list_elem_of_fmap Hin.
    apply pairs_of_fst in Hin. done.
Qed.

Lemma initialize_stores_wf cfg l : ∀ g e s g' s',
  for_each l
    (fun store_id (self : generator) =>
       do n <- randint (MIN_CASH_REGISTERS_PER_STORE cfg) (MAX_CASH_REGISTERS_PER_STORE cfg);
       ret (mkGenerator (num_stores self)
              (dict_set store_id (mkStore n (seqZ 1 n)) (stores self)))) g e s
  = (Ok g', s') →
  stores_wf (stores g) → stores_wf (stores g').
Proof.
  induction l as [|x l IH]; intros g e s g' s'; simpl.
  - unfold ret. by intros [= <- _].
  - unfold bind at 1.
    destruct (bind (randint _ _) _ e s) as [[g1|err] s1] eqn:E1; [|discriminate].
    intros E Hwf. apply (IH _ _ _ _ _ E).
    unfold bind, randint in E1.
    destruct (_ <? _); [discriminate|].
    unfold bind, next, ret in E1. injection E1 as <- _. simpl.
    by apply dict_set_wf.
Qed.

(** The constructor [DataGenerator(n)], when it returns, yields stores whose
    (store, cash register) pairs are all different. *)
Lemma new_pairs_distinct cfg n e s g s' :
  new cfg n e s = (Ok g, s') → NoDup (store_cash_pairs g).
Proof.
  unfold new, initialize_stores. intros E.
  apply stores_wf_pairs. apply (initialize_stores_wf _ _ _ _ _ _ _ E).
  split; [constructor|constructor].
Qed.

(** C7, as amended.  On a Sunday (weekday 6, a constant of the code) or on a
    date listed in the configured holidays, [generate_daily_files] without
    force returns 0 and neither draws, makes a directory nor writes a file.
    With force, under a configuration that lets no draw raise, it writes one
    file for every store and cash register and returns their number. *)
Theorem generate_daily_files_sunday_holiday cfg self target force e s d :
  target_of target e = Some d →
  Calendar.weekday d = 6 ∨ Calendar.strftime d ∈ holidays cfg →
  (force = false → generate_daily_files cfg self target force e s = (Ok 0, s))
  ∧ (force = true → config_ok cfg = true →
     ∃ k ws,
       generate_daily_files cfg self target force e s
       = (Ok (Z.of_nat (length (store_cash_pairs self))),
          mkState k (made_dirs s ++ [day_dir_of cfg d]) (written s ++ ws))
       ∧ w_path <$> ws = file_path_of cfg d <$> store_cash_pairs self).
Proof.
  intros Ht Hday. split.
  - intros ->. apply (generate_daily_files_skip cfg _ _ _ _ d Ht).
    unfold skip_day. destruct Hday as [->|Hh]; [done|].
    rewrite (bool_decide_eq_true_2 _ Hh). apply orb_true_r.
  - intros -> Hcfg.
    destruct (generate_daily_files_runs cfg Hcfg self target true e s d Ht)
      as (k & ws & E & Hp & _); [by left|].
    by exists k, ws.
Qed.

(** C7, as stated, fails twice.  With Saturday as the configured weekly
    off-day, a run for Saturday 2024-01-06 without force writes a file; and
    with force on Sunday 2024-01-07, a configuration of ten receipts per cash
    register makes [random.randint(20, 10)] raise before any file is
    written. *)
Lemma configured_off_day_not_skipped :
  ¬ (∀ cfg (u : unread_settings) self target force e s d,
       target_of target e = Some d →
       Calendar.weekday d = weekly_off_day u ∨ Calendar.strftime d ∈ holidays cfg →
       force = false →
       generate_daily_files cfg self target force e s = (Ok 0, s))
  ∧ ¬ (∀ cfg self target e s d,
         target_of target e = Some d →
         Calendar.weekday d = 6 ∨ Calendar.strftime d ∈ holidays cfg →
         ∃ n s', generate_daily_files cfg self target true e s = (Ok n, s')
                 ∧ w_path <$> written s'
                   = (w_path <$> written s) ++ (file_path_of cfg d <$> store_cash_pairs self)).
Proof.
  split; intros H.
  - specialize (H sample_config (mkUnread 5 25) one_till (DateStr "2024-01-06") false
                  zero_entropy start_state (Calendar.mkDate 2024 1 6)
                  eq_refl (or_introl eq_refl) eq_refl).
    apply (f_equal fst) in H. vm_compute in H. discriminate.
  - destruct (H ten_receipts_config one_till (DateStr "2024-01-07") zero_entropy
                start_state (Calendar.mkDate 2024 1 7) eq_refl (or_introl eq_refl))
      as (n & s' & E & _).
    apply (f_equal fst) in E. vm_compute in E. discriminate.
Qed.



End Generation.

(** ** The scenarios of section 8 of the specification *)

Section Scenarios.
Import SimpleDB DataLoader DataGenerator.

(** Ingesting 3_2.csv under 2024-03-10/ with one row: the persisted row and
    the ledger entry. *)
Example scenario_ingest_one_row :
  let out := process_file (no_faults 1) (no_faults 2) scenario_tree
               ["2024-03-10"; "3_2.csv"] (init, empty_db) in
  out.1 = Ok true
  ∧ out.2.1 = mkLoader 1 0 1
  ∧ receipts out.2.2
    = [mkReceipt (Text "A1") 3 2 (Text "Bread") (Text "Food") 2
         (Fin (350 # 100)) (Fin (0 # 100)) (Calendar.mkDate 2024 3 10) "3_2.csv"]
  ∧ processed_files out.2.2 !! "3_2.csv"
    = Some (mkProcessed "success" (Value 1) Default Default).
Proof. vm_compute. repeat split. Qed.

(** A file without the price column is rejected: nothing is persisted and the
    ledger has no entry for it. *)
Example scenario_missing_price_column :
  let out := process_file (no_faults 1) (no_faults 2) scenario_tree
               ["2024-03-10"; "7_1.csv"] (init, empty_db) in
  read_and_prepare_data scenario_tree ["2024-03-10"; "7_1.csv"] = None
  ∧ out.1 = Ok false
  ∧ receipts out.2.2 = []
  ∧ processed_files out.2.2 !! "7_1.csv" = None.
Proof. vm_compute. repeat split. Qed.

(** Saturday 2024-01-06 with two stores: one file per cash register.  Sunday
    2024-01-07: no file without force, the same three files with force. *)
Example scenario_generate_weekend :
  let run day force :=
    generate_daily_files sample_config two_stores (DateStr day) force
      zero_entropy start_state in
  (run "2024-01-06" false).1 = Ok 3
  ∧ w_path <$> written (run "2024-01-06" false).2
    = [["data"; "2024-01-06"; "1_1.csv"]; ["data"; "2024-01-06"; "2_1.csv"];
       ["data"; "2024-01-06"; "2_2.csv"]]
  ∧ run "2024-01-07" false = (Ok 0, start_state)
  ∧ (run "2024-01-07" true).1 = Ok 3.
Proof. vm_compute. repeat split. Qed.

(** [strptime] reads months and days of one digit too. *)
Example strptime_one_digit :
  Calendar.strptime "2024-3-9" = Some (Calendar.mkDate 2024 3 9)
  ∧ Calendar.strptime "2024-02-30" = None
  ∧ Calendar.strptime "20240309" = None.
Proof. vm_compute. repeat split. Qed.

End Scenarios.

(** ** The theorems at sample inputs *)

Section Samples.
Import SimpleDB DataLoader DataGenerator.


Lemma is_file_processed_iff_success_witness :
  query_ok (no_faults 1) = true
  ∧ processed_files failed_db !! "3_2.csv"
    = Some (mkProcessed "error" Default (Value "connection reset") Default)
  ∧ query_ok unreachable = false
  ∧ is_file_processed (no_faults 1) "3_2.csv" failed_db = false
  ∧ is_file_processed unreachable "3_2.csv" loaded_db = false.
Proof.
  split; [reflexivity|]. split; [vm_compute; reflexivity|]. split; [reflexivity|].
  split.
  - apply (proj1 (proj2 (is_file_processed_iff_success (no_faults 1) "3_2.csv" failed_db))
             (mkProcessed "error" Default (Value "connection reset") Default)).
    + vm_compute; reflexivity.
    + reflexivity.
  - apply (proj2 (proj2 (is_file_processed_iff_success unreachable "3_2.csv" loaded_db))).
    reflexivity.
Defined.

Lemma process_file_skip_noop_witness :
  query_ok (no_faults 1) = true
  ∧ processed_files loaded_db !! path_name sample_path
    = Some (mkProcessed "success" (Value 1) Default Default)
  ∧ process_file (no_faults 1) unreachable sample_tree sample_path (init, loaded_db)
    = (Ok true, (init, loaded_db)).
Proof.
  split; [reflexivity|]. split; [vm_compute; reflexivity|].
  apply (process_file_skip_noop (no_faults 1) unreachable sample_tree sample_path init
           loaded_db (mkProcessed "success" (Value 1) Default Default)).
  - reflexivity.
  - vm_compute; reflexivity.
  - reflexivity.
Defined.

Lemma process_file_counters_witness :
  is_file_processed (no_faults 1) (path_name sample_path) loaded_db = true
  ∧ process_file (no_faults 1) (no_faults 2) sample_tree sample_path (init, loaded_db)
    = (Ok true, (init, loaded_db)).
Proof.
  split; [vm_compute; reflexivity|].
  apply (proj1 (process_file_counters (no_faults 1) (no_faults 2) sample_tree sample_path
                  init loaded_db)).
  vm_compute; reflexivity.
Defined.


Lemma main_force_irrelevant_witness :
  main (mkEnv (fun _ => (no_faults 1, no_faults 2)) 0 5) scenario_tree []
       (mkArgs (Some "2024-03-10") None false true) empty_db
  = main (mkEnv (fun _ => (no_faults 1, no_faults 2)) 0 5) scenario_tree []
         (mkArgs (Some "2024-03-10") None false false) empty_db.
Proof.
  apply (main_force_irrelevant _ scenario_tree []
           (mkArgs (Some "2024-03-10") None false true)
           (mkArgs (Some "2024-03-10") None false false) empty_db);
    reflexivity.
Defined.

Lemma generate_daily_files_sunday_holiday_witness :
  target_of (DateStr "2024-01-07") zero_entropy = Some (Calendar.mkDate 2024 1 7)
  ∧ Calendar.weekday (Calendar.mkDate 2024 1 7) = 6
  ∧ config_ok sample_config = true
  ∧ generate_daily_files sample_config one_till (DateStr "2024-01-07") false
      zero_entropy start_state = (Ok 0, start_state)
  ∧ ∃ k ws, generate_daily_files sample_config one_till (DateStr "2024-01-07") true
              zero_entropy start_state
            = (Ok 1, mkState k [["data"; "2024-01-07"]] ws)
            ∧ w_path <$> ws = [["data"; "2024-01-07"; "1_1.csv"]].
Proof.
  split; [vm_compute; reflexivity|]. split; [vm_compute; reflexivity|].
  split; [vm_compute; reflexivity|].
  destruct (generate_daily_files_sunday_holiday sample_config one_till
              (DateStr "2024-01-07") false zero_entropy start_state
              (Calendar.mkDate 2024 1 7)) as [Hskip _];
    [vm_compute; reflexivity|left; vm_compute; reflexivity|].
  split; [apply Hskip; reflexivity|].
  destruct (generate_daily_files_sunday_holiday sample_config one_till
              (DateStr "2024-01-07") true zero_entropy start_state
              (Calendar.mkDate 2024 1 7)) as [_ Hforce];
    [vm_compute; reflexivity|left; vm_compute; reflexivity|].
  destruct Hforce as (k & ws & E & Hp); [reflexivity|vm_compute; reflexivity|].
  exists k, ws. split; [exact E|exact Hp].
Defined.


End Samples.

(** * Further properties *)

(** ** The persistence gateway: frame, retry and ledger *)

Section GatewayMore.
Import SimpleDB.

(** The three states a call of [save_file_data] can leave. *)
Lemma save_file_data_cases f filename data db :
  let out := save_file_data f filename data db in
  (commits f data = false ∧ out.2 = db)
  ∨ (commits f data = false ∧ out.1 = Ok false
     ∧ ∃ e, out.2 = mkDb (receipts db)
                      (upsert_error filename (substring 0 200 e) (current_timestamp f)
                         (processed_files db)))
  ∨ (commits f data = true ∧ out.1 = Ok true
     ∧ out.2 = mkDb (delete_receipts filename (receipts db)
                       ++ (to_receipt filename <$> data))
                    (upsert_success filename (Z.of_nat (length data))
                       (current_timestamp f) (processed_files db))).
Proof.
  cbv zeta. unfold save_file_data.
  destruct (connect_error f) as [ec|] eqn:Hc.
  { left. split; [|done]. unfold commits. by rewrite Hc. }
  destruct (success_transaction f filename data db) as [e|db'] eqn:Ht.
  - assert (commits f data = false) as Hn.
    { destruct (commits f data) eqn:Hcm; [|done].
      rewrite (success_transaction_inr _ _ _ _ Hc Hcm) in Ht. discriminate. }
    destruct (rollback_error f); [by left|].
    unfold record_error. destruct (error_record_error f); [by left|].
    right; left. split; [done|]. split; [done|]. by exists e.
  - pose proof (success_transaction_commits _ _ _ _ _ Hc Ht) as Hcm.
    rewrite (success_transaction_inr _ _ _ _ Hc Hcm) in Ht. injection Ht as <-.
    right; right. done.
Qed.

Lemma upsert_error_other filename other msg now pf :
  other ≠ filename → upsert_error filename msg now pf !! other = pf !! other.
Proof.
  intros Hne. unfold upsert_error.
  destruct (pf !! filename); by rewrite lookup_insert_ne.
Qed.

Lemma upsert_success_other filename other n now pf :
  other ≠ filename → upsert_success filename n now pf !! other = pf !! other.
Proof.
  intros Hne. unfold upsert_success.
  destruct (pf !! filename); by rewrite lookup_insert_ne.
Qed.

Lemma filter_tagged_new filename other data :
  filter (fun r => file_name r = other) (to_receipt filename <$> data)
  = if decide (filename = other) then to_receipt filename <$> data else [].
Proof.
  induction data as [|row data IH]; [by destruct (decide _)|].
  rewrite fmap_cons, filter_cons, IH. simpl.
  destruct (decide (filename = other)); done.
Qed.

Lemma filter_tagged_deleted filename other rs :
  filter (fun r => file_name r = other) (delete_receipts filename rs)
  = if decide (filename = other) then []
    else filter (fun r => file_name r = other) rs.
Proof.
  unfold delete_receipts. induction rs as [|r rs IH]; [by destruct (decide _)|].
  rewrite (filter_cons (fun r => file_name r ≠ filename)).
  destruct (decide (file_name r ≠ filename)) as [Hr|Hr].
  - rewrite !filter_cons, IH.
    destruct (decide (filename = other)) as [<-|Hne].
    + by destruct (decide (file_name r = filename)).
    + done.
  - apply dec_stable in Hr. rewrite IH, filter_cons.
    destruct (decide (filename = other)) as [<-|Hne]; [done|].
    destruct (decide (file_name r = other)); [congruence|done].
Qed.

(** The rows tagged [other] after a committed save of [filename]. *)
Lemma rows_of_committed filename other data rs pf :
  rows_of other (mkDb (delete_receipts filename rs ++ (to_receipt filename <$> data)) pf)
  = if decide (filename = other) then to_receipt filename <$> data
    else filter (fun r => file_name r = other) rs.
Proof.
  unfold rows_of. simpl. rewrite filter_app, filter_tagged_new, filter_tagged_deleted.
  destruct (decide (filename = other)); [done|by rewrite app_nil_r].
Qed.

Lemma save_file_data_frame f filename data db other :
  other ≠ filename →
  let out := save_file_data f filename data db in
  rows_of other out.2 = rows_of other db
  ∧ processed_files out.2 !! other = processed_files db !! other.
Proof.
  intros Hne. cbv zeta.
  destruct (save_file_data_cases f filename data db)
    as [[_ ->]|[(_ & _ & e & ->)|(_ & _ & ->)]]; simpl.
  - done.
  - split; [done|]. by apply upsert_error_other.
  - rewrite rows_of_committed. destruct (decide (filename = other)); [congruence|].
    split; [done|]. by apply upsert_success_other.
Qed.

(** X1.  Whatever happens during [save_file_data] for one file, the rows and
    the ledger entry of every other file are as before the call. *)
Theorem save_file_data_other_files f filename data db other :
  other ≠ filename →
  let out := save_file_data f filename data db in
  rows_of other out.2 = rows_of other db
  ∧ processed_files out.2 !! other = processed_files db !! other.
Proof. apply save_file_data_frame. Qed.

(** X2.  A committed save leaves exactly the given rows under the file name,
    whatever was there before, and saving the same rows again changes
    nothing in table [receipts]: a retry replaces, it does not duplicate. *)
Theorem save_file_data_retry f1 f2 filename data db :
  commits f1 data = true →
  commits f2 data = true →
  let once := (save_file_data f1 filename data db).2 in
  let twice := (save_file_data f2 filename data once).2 in
  rows_of filename once = to_receipt filename <$> data
  ∧ receipts twice = receipts once.
Proof.
  intros H1 H2. cbv zeta.
  destruct (save_file_data_cases f1 filename data db)
    as [[E _]|[(E & _)|(_ & _ & ->)]]; try congruence.
  destruct (save_file_data_cases f2 filename data
              (mkDb (delete_receipts filename (receipts db)
                       ++ (to_receipt filename <$> data))
                    (upsert_success filename (Z.of_nat (length data))
                       (current_timestamp f1) (processed_files db))))
    as [[E _]|[(E & _)|(_ & _ & ->)]]; try congruence.
  split.
  - rewrite rows_of_committed. by destruct (decide (filename = filename)).
  - simpl. f_equal. unfold delete_receipts at 1. rewrite filter_app.
    assert (filter (fun r => file_name r ≠ filename) (to_receipt filename <$> data) = [])
      as ->.
    { clear. induction data as [|r d IH]; [done|].
      rewrite fmap_cons, filter_cons. simpl.
      destruct (decide (filename ≠ filename)); [done|exact IH]. }
    rewrite app_nil_r. unfold delete_receipts.
    clear. induction (receipts db) as [|r rs IH]; [done|].
    rewrite filter_cons. destruct (decide (file_name r ≠ filename)) as [Hr|Hr]; [|done].
    rewrite filter_cons. destruct (decide (file_name r ≠ filename)); [|done].
    by rewrite IH.
Qed.

(** X3, for one call.  [save_file_data] keeps the ledger consistent with
    table [receipts], whether it commits, fails, or fails to record the
    failure. *)
Lemma save_file_data_consistent f filename data db :
  ledger_consistent db → ledger_consistent (save_file_data f filename data db).2.
Proof.
  intros Hdb other e.
  destruct (decide (other = filename)) as [->|Hne].
  - destruct (save_file_data_cases f filename data db)
      as [[_ ->]|[(_ & _ & msg & ->)|(_ & _ & ->)]].
    + apply Hdb.
    + simpl. unfold upsert_error.
      destruct (processed_files db !! filename);
        rewrite lookup_insert_eq; intros [= <-]; simpl; discriminate.
    + rewrite rows_of_committed. destruct (decide (filename = filename)); [|done].
      simpl. rewrite length_fmap. unfold upsert_success.
      destruct (processed_files db !! filename);
        rewrite lookup_insert_eq; by intros [= <-].
  - destruct (save_file_data_frame f filename data db other Hne) as [Hr Hl].
    cbv zeta in Hr, Hl. rewrite Hl. unfold rows_of in *. rewrite Hr. apply Hdb.
Qed.

(** X3.  What a save does to an entry that the ledger already has.  A
    committed save sets status, row count and timestamp and keeps the error
    message of the earlier attempt; a failed save whose error is recorded
    sets status, message and timestamp and keeps the earlier row count. *)
Theorem save_file_data_existing_entry f filename data db old :
  processed_files db !! filename = Some old →
  let out := save_file_data f filename data db in
  (commits f data = true →
     processed_files out.2 !! filename
     = Some (mkProcessed "success" (Value (Z.of_nat (length data)))
               (error_message old) (Value (current_timestamp f))))
  ∧ (commits f data = false → connect_error f = None → rollback_error f = None →
     error_record_error f = None →
     ∃ msg, (String.length msg ≤ 200)%nat
       ∧ processed_files out.2 !! filename
         = Some (mkProcessed "error" (records_count old) (Value msg)
                   (Value (current_timestamp f)))).
Proof.
  intros Hold. cbv zeta. split.
  - intros Hc.
    destruct (save_file_data_cases f filename data db)
      as [[E _]|[(E & _)|(_ & _ & ->)]]; try congruence.
    simpl. unfold upsert_success. rewrite Hold. apply lookup_insert_eq.
  - intros Hc Hconn Hrb Her. unfold save_file_data. rewrite Hconn.
    destruct (success_transaction f filename data db) as [e|db'] eqn:Ht.
    + rewrite Hrb. unfold record_error. rewrite Her. simpl.
      exists (substring 0 200 e). split; [apply substring_0_length|].
      unfold upsert_error. rewrite Hold. apply lookup_insert_eq.
    + pose proof (success_transaction_commits _ _ _ _ _ Hconn Ht). congruence.
Qed.

(** X4.  Save, then ask.  After a committed save the ledger query answers
    True for the file; after a failed save whose error was recorded it
    answers False, so that the file is taken up again; other files get the
    answer they got before. *)
Theorem is_file_processed_after_save f q filename data db :
  query_ok q = true →
  let out := save_file_data f filename data db in
  (commits f data = true → is_file_processed q filename out.2 = true)
  ∧ (commits f data = false → connect_error f = None → rollback_error f = None →
     error_record_error f = None → is_file_processed q filename out.2 = false)
  ∧ (∀ other, other ≠ filename →
       is_file_processed q other out.2 = is_file_processed q other db).
Proof.
  intros Hq. cbv zeta. rewrite !is_file_processed_query_ok by done.
  split; [|split].
  - intros Hc.
    destruct (save_file_data_cases f filename data db)
      as [[E _]|[(E & _)|(_ & _ & ->)]]; try congruence.
    unfold select_success. simpl.
    destruct (upsert_success_lookup filename (Z.of_nat (length data))
                (current_timestamp f) (processed_files db)) as (e & -> & -> & _).
    done.
  - intros Hc Hconn Hrb Her. unfold save_file_data. rewrite Hconn.
    destruct (success_transaction f filename data db) as [e|db'] eqn:Ht.
    + rewrite Hrb. unfold record_error. rewrite Her. unfold select_success. simpl.
      unfold upsert_error.
      destruct (processed_files db !! filename); by rewrite lookup_insert_eq.
    + pose proof (success_transaction_commits _ _ _ _ _ Hconn Ht). congruence.
  - intros other Hne. rewrite !is_file_processed_query_ok by done.
    unfold select_success.
    pose proof (proj2 (save_file_data_frame f filename data db other Hne)) as E.
    cbv zeta in E. by rewrite E.
Qed.

End GatewayMore.

(** ** The coordinator: what a run keeps *)

Section CoordinatorMore.
Import SimpleDB DataLoader.

(** The database after [process_file] is the one before it or the one that
    [save_file_data] left. *)
Lemma process_file_database chk sav fs p self db :
  (process_file chk sav fs p (self, db)).2.2 = db
  ∨ ∃ df, (process_file chk sav fs p (self, db)).2.2
          = (save_file_data sav (path_name p) df db).2.
Proof.
  unfold process_file.
  destruct (is_file_processed chk (path_name p) db); [by left|].
  destruct (negb (validate_csv_file fs p)); [by left|].
  destruct (read_and_prepare_data fs p) as [[|r df]|]; try by left.
  right. exists (r :: df).
  by destruct (save_file_data sav (path_name p) (r :: df) db) as [[[|]|e] db'].
Qed.

Lemma process_file_consistent chk sav fs p self db :
  ledger_consistent db → ledger_consistent (process_file chk sav fs p (self, db)).2.2.
Proof.
  intros H. destruct (process_file_database chk sav fs p self db) as [->|[df ->]];
    [done|by apply save_file_data_consistent].
Qed.

Lemma process_each_consistent env fs files : ∀ i self db,
  ledger_consistent db → ledger_consistent (process_each env i fs files (self, db)).2.2.
Proof.
  induction files as [|f rest IH]; intros i self db H; cbn [process_each]; [done|].
  pose proof (process_file_consistent (connections env i).1 (connections env i).2
                fs f self db H) as H1.
  destruct (process_file _ _ fs f (self, db)) as [[b|e] [l1 db1]]; [|done].
  by apply IH.
Qed.

(** X5.  The ledger stays consistent with table [receipts] over every run of
    the loader: if, before [main], each entry with status success records
    the number of rows stored for its file, so it does afterwards, whatever
    the arguments, the files and the failures of the server. *)
Theorem main_keeps_ledger_consistent env fs data_dir a db :
  ledger_consistent db → ledger_consistent (main env fs data_dir a db).2.2.
Proof.
  intros H. unfold main.
  destruct (truthy (file a)).
  - destruct (exists_ fs _); [|done].
    pose proof (process_file_consistent (connections env 0).1 (connections env 0).2
                  fs (Path (default "" (file a))) init db H) as H1.
    by destruct (process_file _ _ fs _ (init, db)) as [[b|e] [l1 db1]].
  - unfold process_all_files.
    destruct (find_csv_files fs data_dir) as [|f files]; [done|].
    match goal with |- context [process_each env 0 fs ?l (init, db)] =>
      pose proof (process_each_consistent env fs l 0%nat init db H) as H1;
      destruct (process_each env 0 fs l (init, db)) as [[u|e] [l1 db1]] end; done.
Qed.

End CoordinatorMore.

(** ** The transformer: acceptance and what it returns *)

Section TransformerMore.
Import SimpleDB DataLoader.

Lemma filter_nil_Forall {A} (P : A → Prop) `{∀ x, Decision (P x)} (l : list A) :
  filter P l = [] ↔ Forall (fun x => ¬ P x) l.
Proof.
  induction l as [|x l IH]; [done|].
  rewrite filter_cons, Forall_cons. destruct (decide (P x)); [|tauto].
  split; [done|]. by intros [].
Qed.

Lemma Forall_filter_impl {A} (P Q : A → Prop) `{∀ x, Decision (P x)} (l : list A) :
  Forall Q (filter P l) ↔ Forall (fun x => P x → Q x) l.
Proof.
  induction l as [|x l IH]; [done|].
  rewrite filter_cons, Forall_cons. destruct (decide (P x)).
  - rewrite Forall_cons. tauto.
  - tauto.
Qed.

Lemma missing_columns_nil df :
  missing_columns df = [] ↔ ∀ col, col ∈ required_columns → col ∈ columns df.
Proof.
  unfold missing_columns. split.
  - intros H col Hcol. destruct (decide (col ∈ columns df)) as [|Hn]; [done|].
    assert (col ∈ filter (fun c => c ∉ columns df) required_columns) as Hin
      by (apply list_elem_of_filter; done).
    rewrite H in Hin. by apply elem_of_nil in Hin.
  - intros H. apply filter_nil_Forall, Forall_forall. intros col Hcol Hn.
    by apply Hn, H.
Qed.

Lemma convert_row_is_Some store cash d r :
  is_Some (convert_row store cash d (fillna_discount r)) ↔ infinite (raw_amount r) = false.
Proof.
  unfold convert_row, fillna_discount. destruct r as [di it ca am pr ds]. simpl.
  destruct am as [|[q| |]|s]; simpl; split; intros H; try done;
    try (by eexists); by destruct H.
Qed.

(** X6.  The transformer accepts a file exactly when its name has the form
    digits_digits.csv, the name of its directory parses as a date, it can be
    read, the header has the six required columns, and no row that has both
    keys holds an infinite quantity. *)
Theorem read_and_prepare_data_accepts fs p :
  is_Some (read_and_prepare_data fs p) ↔
  is_Some (extract_store_cash_from_filename (path_name p))
  ∧ is_Some (Calendar.strptime (parent_name p))
  ∧ ∃ df, read_csv fs p = Some df
          ∧ (∀ col, col ∈ required_columns → col ∈ columns df)
          ∧ Forall (fun r => has_keys r = true → infinite (raw_amount r) = false)
                   (rows df).
Proof.
  unfold read_and_prepare_data.
  destruct (extract_store_cash_from_filename (path_name p)) as [[store cash]|];
    [|split; [by intros []|by intros [[] _]]].
  destruct (Calendar.strptime (parent_name p)) as [d|];
    [|split; [by intros []|by intros (_ & [] & _)]].
  destruct (read_csv fs p) as [df|];
    [|split; [by intros []|by intros (_ & _ & df & [=] & _)]].
  assert (is_Some (mapM (convert_row store cash d)
                     (fillna_discount <$> filter (fun r => has_keys r = true) (rows df)))
          ↔ Forall (fun r => has_keys r = true → infinite (raw_amount r) = false) (rows df))
    as Hrows.
  { rewrite mapM_is_Some, Forall_fmap, Forall_filter_impl.
    apply Forall_iff. intros r. simpl. by rewrite convert_row_is_Some. }
  destruct (missing_columns df) as [|c cs] eqn:Hm.
  - pose proof (proj1 (missing_columns_nil df) Hm) as Hcols. split.
    + intros H. repeat (split; [by eexists|]). exists df. split; [done|]. split; [done|].
      apply Hrows. by destruct (mapM _ _); [eexists|destruct H].
    + intros (_ & _ & df' & [= <-] & _ & Hall). apply Hrows in Hall as [t ->].
      by eexists.
  - split; [by intros []|]. intros (_ & _ & df' & [= <-] & Hcols & _).
    pose proof (proj2 (missing_columns_nil df) Hcols). congruence.
Qed.

Lemma round_half_even_nonneg q : (0 <= q)%Q → 0 ≤ round_half_even q.
Proof.
  intros Hq. unfold round_half_even.
  assert (0 ≤ Qfloor q) by (rewrite <- (Qfloor_Z 0); by apply Qfloor_resp_le).
  destruct (Qcompare _ _); [destruct (Z.even _)|..]; lia.
Qed.

Lemma round2_ge0 x : number_ge0 x = true → number_ge0 (round2 x) = true.
Proof.
  destruct x as [q| |]; simpl; try done.
  intros Hq%Qle_bool_iff. apply Qle_bool_iff. unfold round_2dp, Qle. simpl.
  assert (0 ≤ round_half_even (q * 100)).
  { apply round_half_even_nonneg, Qmult_le_0_compat; [done|]. by unfold Qle. }
  lia.
Qed.

Lemma round2_hundredths x : in_hundredths (round2 x).
Proof. by destruct x. Qed.

Lemma cleaned_clean store cash d r : kept r = true → row_clean (cleaned store cash d r).
Proof.
  unfold kept, row_clean, cleaned, has_keys. simpl.
  intros [[[[Hd Hi]%andb_true_iff Ha]%andb_true_iff Hp]%andb_true_iff Hs]%andb_true_iff.
  split; [by destruct (raw_doc_id r)|]. split; [by destruct (raw_item r)|].
  split; [by apply Z.ltb_lt|].
  split; [by apply round2_ge0|]. split; [by apply round2_ge0|].
  split; apply round2_hundredths.
Qed.

(** X7.  Every row the transformer returns has receipt id and item, a
    positive quantity, a price and a discount that are not negative and are
    given in hundredths, and carries the store and cash register read from
    the file name and the date read from the directory name. *)
Theorem read_and_prepare_data_rows fs p out :
  read_and_prepare_data fs p = Some out →
  ∃ store cash d,
    extract_store_cash_from_filename (path_name p) = Some (store, cash)
    ∧ Calendar.strptime (parent_name p) = Some d
    ∧ Forall (fun r => row_clean r
                       ∧ store_id r = store ∧ cash_id r = cash ∧ receipt_date r = d) out.
Proof.
  unfold read_and_prepare_data.
  destruct (extract_store_cash_from_filename (path_name p)) as [[store cash]|];
    [|discriminate].
  destruct (Calendar.strptime (parent_name p)) as [d|]; [|discriminate].
  destruct (read_csv fs p) as [df|]; [|discriminate].
  destruct (missing_columns df); [|discriminate].
  destruct (mapM _ _) as [typed|] eqn:Ht; [|discriminate].
  intros [= <-]. exists store, cash, d. split; [done|]. split; [done|].
  rewrite (prepare_rows _ _ _ _ _ Ht). apply Forall_fmap, Forall_forall.
  intros r [Hk _]%list_elem_of_filter. split; [by apply cleaned_clean|done].
Qed.

End TransformerMore.

(** ** The coordinator: names, order and statistics *)

Section RunsMore.
Import SimpleDB DataLoader.

(** Once [process_file] has returned True the ledger shows success for the
    name of the file. *)
Lemma process_file_true_success chk sav fs p st st' :
  process_file chk sav fs p st = (Ok true, st') →
  select_success (path_name p) st'.2 = true.
Proof.
  destruct st as [self db]. unfold process_file.
  destruct (is_file_processed chk (path_name p) db) eqn:Hp.
  - intros [= <-]. by apply is_file_processed_true in Hp as [_ Hp].
  - destruct (negb (validate_csv_file fs p)); [discriminate|].
    destruct (read_and_prepare_data fs p) as [[|r df]|]; try discriminate.
    destruct (save_file_data sav (path_name p) (r :: df) db) as [[[|]|e] db'] eqn:Hs;
      try discriminate.
    intros [= <-]. apply save_file_data_true in Hs. subst db'.
    unfold select_success. cbn [snd processed_files].
    destruct (upsert_success_lookup (path_name p) (Z.of_nat (length (r :: df)))
                (current_timestamp sav) (processed_files db)) as (e & -> & -> & _).
    done.
Qed.

(** X8.  The ledger knows a file by its name alone.  After [process_file] has
    returned True for a file, a file of the same name in any other
    directory, whatever it holds, is skipped as long as the ledger query
    goes through: nothing of it is read or stored. *)
Theorem same_name_is_skipped chk sav fs p st st' chk' sav' fs' q :
  process_file chk sav fs p st = (Ok true, st') →
  path_name q = path_name p →
  query_ok chk' = true →
  process_file chk' sav' fs' q st' = (Ok true, st').
Proof.
  intros H Hn Hq. apply process_file_true_success in H.
  destruct st' as [self' db']. cbn [snd] in H. unfold process_file.
  by rewrite is_file_processed_query_ok, Hn, H.
Qed.

Global Instance key_le_antisym : AntiSymm (=) key_le.
Proof.
  intros [a1 b1] [a2 b2]. unfold key_le. simpl.
  intros [[Hn H1]|[-> H1]] [[Hn' H2]|[E H2]]; try congruence.
  - destruct Hn. by apply (anti_symm String.le).
  - f_equal. by apply (anti_symm String.le).
Qed.

Lemma fmap_NoDup_inj {A B} (f : A → B) (l : list A) x y :
  NoDup (f <$> l) → x ∈ l → y ∈ l → f x = f y → x = y.
Proof.
  induction l as [|a l IH]; [by intros _ ?%elem_of_nil|].
  rewrite fmap_cons, NoDup_cons.
  intros [Ha Hl] [->|Hx]%elem_of_cons [->|Hy]%elem_of_cons E; try done.
  - destruct Ha. rewrite E. by apply list_elem_of_fmap_2.
  - destruct Ha. rewrite <- E. by apply list_elem_of_fmap_2.
  - by apply IH.
Qed.

(** X9.  The processing order does not depend on the order in which the
    directory tree is enumerated: when no two admitted files share both
    directory name and file name, any two enumerations of the same files
    give the same list. *)
Theorem find_csv_files_order_independent fs1 base1 fs2 base2 :
  rglob_csv fs1 base1 ≡ₚ rglob_csv fs2 base2 →
  NoDup (sort_key <$> filter in_date_dir (rglob_csv fs1 base1)) →
  find_csv_files fs1 base1 = find_csv_files fs2 base2.
Proof.
  intros Hperm Hnd. unfold find_csv_files.
  apply (Sorted_unique_strong path_le); try apply sort_paths_sorted.
  - intros x y Hx Hy Hxy Hyx.
    rewrite sort_paths_perm in Hx. rewrite sort_paths_perm, <- Hperm in Hy.
    apply (fmap_NoDup_inj sort_key _ _ _ Hnd Hx Hy).
    by apply (anti_symm key_le).
  - by rewrite !sort_paths_perm, Hperm.
Qed.

(** Each call counts the file at most once, and no counter goes down. *)
Lemma process_file_counted chk sav fs p self db :
  let self' := (process_file chk sav fs p (self, db)).2.1 in
  processed_count self ≤ processed_count self'
  ∧ error_count self ≤ error_count self'
  ∧ total_records self ≤ total_records self'
  ∧ counted self self' ≤ 1.
Proof.
  cbv zeta. unfold process_file, counted.
  destruct (is_file_processed chk (path_name p) db); [simpl; lia|].
  destruct (negb (validate_csv_file fs p)); [simpl; lia|].
  destruct (read_and_prepare_data fs p) as [[|r df]|]; try (simpl; lia).
  destruct (save_file_data sav (path_name p) (r :: df) db) as [[[|]|e] db'];
    cbn [fst snd processed_count error_count total_records]; lia.
Qed.

Lemma process_each_counted env fs files : ∀ i self db,
  let self' := (process_each env i fs files (self, db)).2.1 in
  processed_count self ≤ processed_count self'
  ∧ error_count self ≤ error_count self'
  ∧ total_records self ≤ total_records self'
  ∧ counted self self' ≤ Z.of_nat (length files).
Proof.
  induction files as [|f rest IH]; intros i self db; cbn [process_each].
  - unfold counted. simpl. lia.
  - pose proof (process_file_counted (connections env i).1 (connections env i).2
                  fs f self db) as H1. cbv zeta in H1.
    destruct (process_file _ _ fs f (self, db)) as [[b|e] [l1 db1]];
      cbn [fst snd] in *.
    + specialize (IH (S i) l1 db1). cbv zeta in IH. unfold counted in *.
      cbn [length]. lia.
    + unfold counted in *. cbn [length]. lia.
Qed.

(** X10.  The statistics of [process_all_files].  When discovery finds no
    file the call returns zeros and touches nothing.  Otherwise the numbers
    it returns are the counters of the loader after the run, which never go
    down during the run, and the files counted as processed or as errors
    are at most as many as discovery found. *)
Theorem process_all_files_statistics env fs data_dir d self db out self' db' :
  process_all_files env fs data_dir d (self, db) = (Ok out, (self', db')) →
  (find_csv_files fs data_dir = [] →
     out = mkStats 0 0 0 0 ∧ self' = self ∧ db' = db)
  ∧ (find_csv_files fs data_dir ≠ [] →
     processed out = processed_count self' ∧ errors out = error_count self'
     ∧ stats_total_records out = total_records self'
     ∧ duration out = end_time env - start_time env)
  ∧ processed_count self ≤ processed_count self'
  ∧ error_count self ≤ error_count self'
  ∧ total_records self ≤ total_records self'
  ∧ counted self self' ≤ Z.of_nat (length (find_csv_files fs data_dir)).
Proof.
  unfold process_all_files.
  destruct (find_csv_files fs data_dir) as [|f files] eqn:Hf.
  - intros [= <- <- <-]. unfold counted. simpl. repeat split; try done; lia.
  - match goal with |- context [process_each env 0 fs ?l (self, db)] =>
      pose proof (process_each_counted env fs l 0%nat self db) as Hc;
      assert (length l ≤ length (f :: files))%nat as Hlen
    end.
    { destruct (truthy d); [apply length_filter|done]. }
    cbv zeta in Hc.
    destruct (process_each env 0 fs _ (self, db)) as [[u|e] [l1 db1]]; [|discriminate].
    intros [= <- <- <-]. cbn [fst snd] in Hc.
    split; [done|]. split; [done|]. lia.
Qed.

End RunsMore.

(** ** From the generator to the loader: names and dates read back *)

Section RoundTrips.
Import DataLoader DataGenerator.



Lemma app_empty s : "" +:+ s = s.
Proof. reflexivity. Qed.









Lemma int_of_digits_go_shift s : ∀ acc,
  int_of_digits_go acc s = acc * 10 ^ Z.of_nat (String.length s) + int_of_digits_go 0 s.
Proof.
  induction s as [|c s IH]; intros acc; cbn [int_of_digits_go String.length].
  - change (Z.of_nat 0) with 0. lia.
  - rewrite (IH (10 * acc + digit_value c)), (IH (10 * 0 + digit_value c)).
    rewrite Nat2Z.inj_succ, Z.pow_succ_r by lia. lia.
Qed.

Lemma digit_value_pretty_N_char x : (x < 10)%N → digit_value (pretty_N_char x) = Z.of_N x.
Proof.
  intros Hx.
  assert (x = 0 ∨ x = 1 ∨ x = 2 ∨ x = 3 ∨ x = 4 ∨ x = 5 ∨ x = 6 ∨ x = 7
          ∨ x = 8 ∨ x = 9)%N as Hc by lia.
  repeat (destruct Hc as [->|Hc]; [reflexivity|]). by subst.
Qed.

Lemma int_of_digits_pretty_N_go x : ∀ s,
  int_of_digits (pretty_N_go x s)
  = Z.of_N x * 10 ^ Z.of_nat (String.length s) + int_of_digits s.
Proof.
  induction (N.lt_wf_0 x) as [x _ IH]; intros s.
  destruct (decide (x = 0%N)) as [->|Hx]; [rewrite pretty_N_go_0; lia|].
  rewrite pretty_N_go_step by lia.
  rewrite IH by (apply N.div_lt; lia).
  unfold int_of_digits. cbn [int_of_digits_go String.length].
  rewrite (int_of_digits_go_shift s (10 * 0 + _)).
  rewrite digit_value_pretty_N_char by (apply N.mod_lt; lia).
  rewrite Nat2Z.inj_succ, Z.pow_succ_r by lia.
  rewrite (N.div_mod x 10) at 3 by lia.
  rewrite N2Z.inj_add, N2Z.inj_mul. change (Z.of_N 10) with 10. lia.
Qed.

Lemma pretty_N_go_all_digits x : ∀ s, all_digits s → all_digits (pretty_N_go x s).
Proof.
  induction (N.lt_wf_0 x) as [x _ IH]; intros s Hs.
  destruct (decide (x = 0%N)) as [->|Hx]; [by rewrite pretty_N_go_0|].
  rewrite pretty_N_go_step by lia.
  apply IH; [apply N.div_lt; lia|]. split; [apply pretty_N_char_digit|done].
Qed.

Lemma pretty_N_go_nonempty x : ∀ s, (0 < x)%N → pretty_N_go x s ≠ "".
Proof.
  induction (N.lt_wf_0 x) as [x _ IH]; intros s Hx.
  rewrite pretty_N_go_step by lia.
  destruct (decide (x `div` 10 = 0)%N) as [->|Hd]; [by rewrite pretty_N_go_0|].
  apply IH; [apply N.div_lt; lia|by apply N.neq_0_lt_0].
Qed.

(** The decimal text of a number that is not negative: digits, at least
    one, that read back as the number. *)
Lemma pretty_nonneg (n : Z) :
  0 ≤ n → all_digits (pretty n) ∧ pretty n ≠ "" ∧ int_of_digits (pretty n) = n.
Proof.
  intros Hn. destruct n as [|p|p]; [done| |lia].
  unfold pretty, pretty_Z, pretty, pretty_positive, pretty, pretty_N.
  case_decide; [done|].
  split; [by apply pretty_N_go_all_digits|].
  split; [by apply pretty_N_go_nonempty|].
  rewrite int_of_digits_pretty_N_go.
  change (int_of_digits "") with 0. change (Z.of_nat (String.length "")) with 0.
  rewrite N2Z.inj_pos. lia.
Qed.

Lemma span_digits_stop d : ∀ c r,
  all_digits d → is_digit c = false →
  span_digits (d +:+ String c r) = (d, String c r).
Proof.
  induction d as [|a d IH]; intros c r Hd Hc.
  - rewrite app_empty. cbn [span_digits]. by rewrite Hc.
  - destruct Hd as [Ha Hd]. rewrite app_String. cbn [span_digits].
    by rewrite Ha, IH.
Qed.

(** The pattern of the loader on a generated file name. *)
Lemma file_name_reads_back store cash :
  0 ≤ store → 0 ≤ cash →
  extract_store_cash_from_filename (file_name_of store cash) = Some (store, cash).
Proof.
  intros Hs Hc.
  destruct (pretty_nonneg store Hs) as (Hd1 & Hn1 & Hv1).
  destruct (pretty_nonneg cash Hc) as (Hd2 & Hn2 & Hv2).
  unfold extract_store_cash_from_filename, file_name_of.
  change ("_" +:+ ?s) with (String "_" s).
  rewrite span_digits_stop by done.
  destruct (pretty store) as [|a1 t1] eqn:E1; [done|].
  change (".csv") with (String "." "csv").
  rewrite span_digits_stop by done.
  destruct (pretty cash) as [|a2 t2] eqn:E2; [done|].
  rewrite bool_decide_eq_true_2 by done. simpl. by rewrite Hv1, Hv2.
Qed.

(** X12.  The file name the generator writes reads back as the pair it was
    written for: for store and cash register numbers that are not negative,
    the loader's pattern extracts from [f"{store_id}_{cash_id}.csv"] the
    same two numbers. *)
Theorem extract_file_name_of store cash :
  0 ≤ store → 0 ≤ cash →
  extract_store_cash_from_filename (file_name_of store cash) = Some (store, cash).
Proof. apply file_name_reads_back. Qed.








End RoundTrips.

(** ** The generator: ranges of days, stores and receipts *)

Section GeneratorMore.
Import Calendar DataGenerator.

Lemma valid_bounds d : on_calendar d →
  1 ≤ year d ≤ 9999 ∧ 1 ≤ month d ≤ 12 ∧ 1 ≤ day d ≤ days_in_month (year d) (month d).
Proof.
  unfold on_calendar, valid_date. intros H.
  repeat (apply andb_true_iff in H as [H ?]).
  repeat match goal with H : (_ <=? _) = true |- _ => apply Z.leb_le in H end. lia.
Qed.

Lemma days_before_year_succ y :
  days_before_year (y + 1) = days_before_year y + (if is_leap y then 366 else 365).
Proof.
  unfold days_before_year, is_leap. cbv zeta.
  replace (y + 1 - 1) with y by lia.
  destruct (y mod 4 =? 0) eqn:E4; destruct (y mod 100 =? 0) eqn:E100;
    destruct (y mod 400 =? 0) eqn:E400; cbn [andb orb negb];
    rewrite ?Z.eqb_eq, ?Z.eqb_neq in *; Z.div_mod_to_equations; lia.
Qed.

Lemma days_before_month_succ y m :
  1 ≤ m < 12 → days_before_month y (m + 1) = days_before_month y m + days_in_month y m.
Proof.
  intros Hm. unfold days_before_month, days_in_month.
  assert (m = 1 ∨ m = 2 ∨ m = 3 ∨ m = 4 ∨ m = 5 ∨ m = 6 ∨ m = 7 ∨ m = 8 ∨ m = 9
          ∨ m = 10 ∨ m = 11) as Hc by lia.
  repeat (destruct Hc as [->|Hc]; [by destruct (is_leap y)|]). subst.
  by destruct (is_leap y).
Qed.

(** The day after has the next ordinal: [next_day] is the addition of one
    day that [timedelta] performs on ordinals. *)
Lemma next_day_toordinal d d' :
  on_calendar d → next_day d = Some d' → on_calendar d' ∧ toordinal d' = toordinal d + 1.
Proof.
  intros Hv. pose proof (valid_bounds d Hv) as (Hy & Hm & Hd).
  unfold next_day. destruct d as [y m dd]. cbn [year month day] in *.
  destruct (dd <? days_in_month y m) eqn:E1.
  { apply Z.ltb_lt in E1. intros [= <-]. unfold on_calendar, valid_date, toordinal. simpl.
    split; [|lia]. repeat (apply andb_true_iff; split); apply Z.leb_le; lia. }
  apply Z.ltb_ge in E1.
  destruct (m <? 12) eqn:E2.
  { apply Z.ltb_lt in E2. intros [= <-]. unfold on_calendar, valid_date, toordinal. simpl.
    rewrite days_before_month_succ by lia.
    split; [|lia]. repeat (apply andb_true_iff; split); apply Z.leb_le; try lia.
    assert (m + 1 = 2 ∨ m + 1 = 3 ∨ m+1 = 4 ∨ m+1 = 5 ∨ m+1 = 6 ∨ m+1 = 7 ∨ m+1 = 8 ∨ m+1 = 9
          ∨ m+1 = 10 ∨ m+1 = 11 ∨ m + 1 = 12) as Hc by lia.
    unfold days_in_month.
    repeat (destruct Hc as [->|Hc]; [by destruct (is_leap y)|]). rewrite Hc.
    by destruct (is_leap y). }
  apply Z.ltb_ge in E2. assert (m = 12) as -> by lia.
  destruct (y <? 9999) eqn:E3; [|discriminate].
  apply Z.ltb_lt in E3. intros [= <-]. unfold on_calendar, valid_date, toordinal. simpl.
  rewrite days_before_year_succ.
  split.
  { repeat (apply andb_true_iff; split); apply Z.leb_le; try lia. done. }
  unfold days_before_month, days_in_month in *. simpl in *.
  destruct (is_leap y); simpl; lia.
Qed.

Lemma days_before_year_mono a b : a ≤ b → days_before_year a ≤ days_before_year b.
Proof.
  intros H. unfold days_before_year. cbv zeta. Z.div_mod_to_equations. lia.
Qed.

Lemma days_in_year_bound y m dd :
  1 ≤ m ≤ 12 → 1 ≤ dd ≤ days_in_month y m →
  1 ≤ days_before_month y m + dd ≤ (if is_leap y then 366 else 365).
Proof.
  intros Hm. unfold days_before_month, days_in_month.
  assert (m = 1 ∨ m = 2 ∨ m = 3 ∨ m = 4 ∨ m = 5 ∨ m = 6 ∨ m = 7 ∨ m = 8 ∨ m = 9
          ∨ m = 10 ∨ m = 11 ∨ m = 12) as Hc by lia.
  repeat (destruct Hc as [->|Hc]; [destruct (is_leap y); simpl; lia|]). subst.
  destruct (is_leap y); simpl; lia.
Qed.

Lemma days_before_month_mono y m m' :
  1 ≤ m → m < m' ≤ 12 → days_before_month y m + days_in_month y m ≤ days_before_month y m'.
Proof.
  intros H1 H2. unfold days_before_month, days_in_month.
  assert (m = 1 ∨ m = 2 ∨ m = 3 ∨ m = 4 ∨ m = 5 ∨ m = 6 ∨ m = 7 ∨ m = 8 ∨ m = 9
          ∨ m = 10 ∨ m = 11) as Hc by lia.
  assert (m' = 2 ∨ m' = 3 ∨ m' = 4 ∨ m' = 5 ∨ m' = 6 ∨ m' = 7 ∨ m' = 8 ∨ m' = 9
          ∨ m' = 10 ∨ m' = 11 ∨ m' = 12) as Hc' by lia.
  destruct (is_leap y);
  repeat (destruct Hc as [->|Hc]); subst; try lia;
  repeat (destruct Hc' as [->|Hc']); subst; simpl; lia.
Qed.

(** The order on dates is the order on their ordinals. *)
Lemma date_le_toordinal a b :
  on_calendar a → on_calendar b → date_le a b = true ↔ toordinal a ≤ toordinal b.
Proof.
  intros Ha Hb.
  pose proof (valid_bounds a Ha) as (Hya & Hma & Hda).
  pose proof (valid_bounds b Hb) as (Hyb & Hmb & Hdb).
  destruct a as [ya ma da], b as [yb mb db]. cbn [year month day] in *.
  unfold date_le, toordinal. cbn [year month day].
  pose proof (days_in_year_bound ya ma da Hma Hda).
  pose proof (days_in_year_bound yb mb db Hmb Hdb).
  destruct (Z.lt_trichotomy ya yb) as [Hlt|[->|Hgt]].
  - rewrite (proj2 (Z.ltb_lt _ _) Hlt). cbn [orb]. split; [intros _|done].
    pose proof (days_before_year_mono (ya + 1) yb ltac:(lia)).
    rewrite days_before_year_succ in *. lia.
  - rewrite Z.ltb_irrefl, Z.eqb_refl. cbn [orb andb].
    destruct (Z.lt_trichotomy ma mb) as [Hlt|[->|Hgt]].
    + rewrite (proj2 (Z.ltb_lt _ _) Hlt). cbn [orb]. split; [intros _|done].
      pose proof (days_before_month_mono yb ma mb ltac:(lia) ltac:(lia)). lia.
    + rewrite Z.ltb_irrefl, Z.eqb_refl. cbn [orb andb]. rewrite Z.leb_le. lia.
    + rewrite (proj2 (Z.ltb_ge _ _)) by lia. rewrite (proj2 (Z.eqb_neq _ _)) by lia.
      cbn [orb andb]. split; [done|].
      pose proof (days_before_month_mono yb mb ma ltac:(lia) ltac:(lia)). lia.
  - rewrite (proj2 (Z.ltb_ge _ _)) by lia. rewrite (proj2 (Z.eqb_neq _ _)) by lia.
    cbn [orb andb]. split; [done|].
    pose proof (days_before_year_mono (yb + 1) ya ltac:(lia)).
    rewrite days_before_year_succ in *. lia.
Qed.

Lemma strptime_valid s d : strptime s = Some d → on_calendar d.
Proof.
  unfold strptime. destruct (format_regex_match s) as [[[[y m] dd] [|? ?]]|]; try discriminate.
  destruct (valid_date y m dd) eqn:E; [|discriminate]. by intros [= <-].
Qed.

Lemma next_day_None d : on_calendar d → next_day d = None → d = last_day.
Proof.
  intros Hv. pose proof (valid_bounds d Hv) as (Hy & Hm & Hd).
  destruct d as [y m dd]. unfold next_day. cbn [year month day] in *.
  destruct (dd <? _) eqn:E1; [discriminate|].
  destruct (m <? 12) eqn:E2; [discriminate|].
  destruct (y <? 9999) eqn:E3; [discriminate|]. intros _.
  apply Z.ltb_ge in E1, E2, E3.
  assert (m = 12) as -> by lia. assert (y = 9999) as -> by lia.
  change (days_in_month 9999 12) with 31 in *. unfold last_day. f_equal. lia.
Qed.

Lemma toordinal_inj a b : on_calendar a → on_calendar b → toordinal a = toordinal b → a = b.
Proof.
  intros Ha Hb E.
  assert (date_le a b = true) as H1 by (apply date_le_toordinal; [done..|lia]).
  assert (date_le b a = true) as H2 by (apply date_le_toordinal; [done..|lia]).
  destruct a as [ya ma da], b as [yb mb db]. unfold date_le in *. cbn [year month day] in *.
  repeat match goal with
  | H : (_ || _) = true |- _ => apply orb_true_iff in H as [H|H]
  | H : (_ && _) = true |- _ => apply andb_true_iff in H as [? H]
  | H : (_ <? _) = true |- _ => apply Z.ltb_lt in H
  | H : (_ =? _) = true |- _ => apply Z.eqb_eq in H
  | H : (_ <=? _) = true |- _ => apply Z.leb_le in H
  end; try lia.
  f_equal; lia.
Qed.

Section Range.
Context (cfg : config) (Hcfg : config_ok cfg = true).

Lemma date_le_last_day d : on_calendar d → date_le last_day d = true → d = last_day.
Proof.
  intros Hv. pose proof (valid_bounds d Hv) as (Hy & Hm & Hd).
  destruct d as [y m dd]. unfold date_le, last_day. cbn [year month day] in *.
  intros H.
  repeat match goal with
  | H : (_ || _) = true |- _ => apply orb_true_iff in H as [H|H]
  | H : (_ && _) = true |- _ => apply andb_true_iff in H as [? H]
  | H : (_ <? _) = true |- _ => apply Z.ltb_lt in H
  | H : (_ =? _) = true |- _ => apply Z.eqb_eq in H
  | H : (_ <=? _) = true |- _ => apply Z.leb_le in H
  end; try lia.
  subst. change (days_in_month 9999 12) with 31 in *. f_equal. lia.
Qed.

(** With one round of fuel more than the days left, the loop runs to its
    end and writes the files of the days left that are not skipped. *)
Lemma date_range_loop_runs self end_ :
  on_calendar end_ → end_ ≠ last_day →
  ∀ fuel current total e s,
    on_calendar current →
    Z.max 0 (toordinal end_ - toordinal current + 1) < Z.of_nat fuel →
    ∃ k dirs ws,
      date_range_loop cfg fuel self current end_ total e s
      = (Ok (total + Z.of_nat (length ws)),
         mkState k (made_dirs s ++ dirs) (written s ++ ws))
      ∧ ∀ p, p ∈ w_path <$> ws ↔
             ∃ d, on_calendar d ∧ toordinal current ≤ toordinal d ≤ toordinal end_
                  ∧ of_day cfg self d p.
Proof using Hcfg.
  intros Hend Hlast.
  induction fuel as [|fuel IH]; intros current total e s Hcur Hfuel; [lia|].
  cbn [date_range_loop].
  destruct (date_le current end_) eqn:Hle.
  - pose proof (proj1 (date_le_toordinal _ _ Hcur Hend) Hle) as Hord.
    destruct (next_day current) as [tomorrow|] eqn:Hnext.
    2:{ apply next_day_None in Hnext as ->; [|done].
        by apply date_le_last_day in Hle. }
    destruct (next_day_toordinal _ _ Hcur Hnext) as [Htom Hsucc].
    unfold bind at 1.
    destruct (skip_day cfg current) eqn:Hskip.
    + rewrite (generate_daily_files_skip cfg self (DateObj current) e s current eq_refl Hskip).
      destruct (IH tomorrow (total + 0) e s Htom ltac:(lia)) as (k & dirs & ws & E & Hws).
      exists k, dirs, ws. split; [rewrite E; do 2 f_equal; lia|].
      intros p. rewrite Hws. split.
      * intros (d & Hd & Ho & Hof). exists d. split; [done|]. split; [lia|done].
      * intros (d & Hd & Ho & Hof). exists d. split; [done|]. split; [|done].
        destruct (decide (toordinal d = toordinal current)) as [Heq|Hne]; [|lia].
        apply toordinal_inj in Heq as ->; [|done..].
        destruct Hof as [Hof _]. congruence.
    + destruct (generate_daily_files_runs cfg Hcfg self (DateObj current) false e s current
                  eq_refl (or_intror Hskip)) as (k1 & ws1 & E1 & Hp1 & _).
      rewrite E1.
      destruct (IH tomorrow (total + Z.of_nat (length (store_cash_pairs self))) e
                  (mkState k1 (made_dirs s ++ [day_dir_of cfg current]) (written s ++ ws1))
                  Htom ltac:(lia)) as (k & dirs & ws & E & Hws).
      exists k, ([day_dir_of cfg current] ++ dirs), (ws1 ++ ws).
      cbn [made_dirs written] in E. rewrite E, !app_assoc. split.
      { do 2 f_equal. rewrite length_app.
        assert (length ws1 = length (store_cash_pairs self)) as <-.
        { by rewrite <- (length_fmap w_path), Hp1, length_fmap. }
        lia. }
      intros p. rewrite fmap_app, elem_of_app, Hws, Hp1. split.
      * intros [(sc & -> & Hsc)%list_elem_of_fmap|(d & Hd & Ho & Hof)].
        -- exists current. split; [done|]. split; [lia|]. split; [done|]. by exists sc.
        -- exists d. split; [done|]. split; [lia|done].
      * intros (d & Hd & Ho & Hof).
        destruct (decide (toordinal d = toordinal current)) as [Heq|Hne].
        -- apply toordinal_inj in Heq as ->; [|done..]. left.
           destruct Hof as (_ & sc & Hsc & ->). by apply list_elem_of_fmap_2.
        -- right. exists d. split; [done|]. split; [lia|done].
  - exists (cursor s), [], []. rewrite !app_nil_r. split.
    { unfold ret. destruct s. simpl. do 2 f_equal. lia. }
    intros p. split; [by intros ?%elem_of_nil|].
    intros (d & Hd & Ho & _).
    assert (date_le current end_ = true); [|congruence].
    apply date_le_toordinal; [done..|lia].
Qed.

(** The files of a range: those of its days that are not skipped. *)
Lemma generate_date_range_runs self start_date end_date start end_ e s :
  strptime start_date = Some start →
  strptime end_date = Some end_ →
  end_ ≠ last_day →
  ∃ k dirs ws,
    generate_date_range cfg self start_date end_date e s
    = (Ok (Z.of_nat (length ws)), mkState k (made_dirs s ++ dirs) (written s ++ ws))
    ∧ ∀ p, p ∈ w_path <$> ws ↔ ∃ d, in_days start end_ d ∧ of_day cfg self d p.
Proof using Hcfg.
  intros Hs He Hlast. unfold generate_date_range. rewrite Hs, He.
  pose proof (strptime_valid _ _ Hs) as Hvs. pose proof (strptime_valid _ _ He) as Hve.
  destruct (date_range_loop_runs self end_ Hve Hlast
              (S (Z.to_nat (toordinal end_ - toordinal start + 1))) start 0 e s Hvs
              ltac:(lia)) as (k & dirs & ws & E & Hws).
  exists k, dirs, ws. split; [by rewrite E|].
  intros p. rewrite Hws. unfold in_days. split.
  - intros (d & Hd & Ho & Hof). exists d. split; [|done]. split; [done|].
    split; apply date_le_toordinal; (done || lia).
  - intros (d & (Hd & H1 & H2) & Hof). exists d. split; [done|]. split; [|done].
    apply date_le_toordinal in H1, H2; (done || lia).
Qed.

(** X14.  [generate_date_range] never forces a day.  For two dates that
    parse, the second before 9999-12-31, and a configuration that lets no
    draw raise, it returns the number of files it wrote, and the files
    written are exactly those of the stores and cash registers for the days
    of the calendar from the first date to the second that are neither a
    Sunday nor a holiday; when the second date is before the first, nothing
    is written. *)
Theorem generate_date_range_days self start_date end_date start end_ e s :
  strptime start_date = Some start →
  strptime end_date = Some end_ →
  end_ ≠ last_day →
  ∃ k dirs ws,
    generate_date_range cfg self start_date end_date e s
    = (Ok (Z.of_nat (length ws)), mkState k (made_dirs s ++ dirs) (written s ++ ws))
    ∧ (∀ p, p ∈ w_path <$> ws ↔ ∃ d, in_days start end_ d ∧ of_day cfg self d p)
    ∧ (date_le start end_ = false → ws = []).
Proof using Hcfg.
  intros Hs He Hlast.
  destruct (generate_date_range_runs self _ _ _ _ e s Hs He Hlast)
    as (k & dirs & ws & E & Hws).
  exists k, dirs, ws. split; [done|]. split; [done|].
  intros Hle. destruct ws as [|w ws]; [done|]. exfalso.
  destruct (proj1 (Hws (w_path w))) as (d & (Hd & H1 & H2) & _);
    [rewrite fmap_cons; apply list_elem_of_here|].
  pose proof (strptime_valid _ _ Hs) as Hvs. pose proof (strptime_valid _ _ He) as Hve.
  apply date_le_toordinal in H1, H2; [|done..].
  assert (date_le start end_ = true); [|congruence].
  apply date_le_toordinal; [done..|lia].
Qed.

End Range.

Section Stores.
Context (cfg : config)
  (Hrange : MIN_CASH_REGISTERS_PER_STORE cfg ≤ MAX_CASH_REGISTERS_PER_STORE cfg).

Lemma initialize_stores_loop l : ∀ g e s,
  NoDup ((stores g).*1 ++ l) → Forall (store_ok cfg) (stores g) →
  ∃ g' k,
    for_each l
      (fun store_id (self : generator) =>
         do n <- randint (MIN_CASH_REGISTERS_PER_STORE cfg) (MAX_CASH_REGISTERS_PER_STORE cfg);
         ret (mkGenerator (num_stores self)
                (dict_set store_id (mkStore n (seqZ 1 n)) (stores self)))) g e s
    = (Ok g', mkState k (made_dirs s) (written s))
    ∧ num_stores g' = num_stores g
    ∧ (stores g').*1 = (stores g).*1 ++ l
    ∧ Forall (store_ok cfg) (stores g').
Proof using Hrange.
  induction l as [|x l IH]; intros g e s Hnd Hok.
  - exists g, (cursor s). rewrite app_nil_r. by destruct s.
  - cbn [for_each]. unfold bind at 1.
    destruct (returns_randint _ _ Hrange e s) as (n & k1 & ws1 & E1 & -> & Hn).
    unfold bind at 1. rewrite E1. unfold ret at 1. rewrite app_nil_r.
    set (g1 := mkGenerator _ _).
    assert ((stores g1).*1 = (stores g).*1 ++ [x]) as Hkeys.
    { unfold g1. cbn [stores]. rewrite dict_set_keys.
      rewrite bool_decide_eq_false_2; [done|].
      intros Hin. apply NoDup_app in Hnd as (_ & Hnd & _).
      apply (Hnd x Hin), list_elem_of_here. }
    destruct (IH g1 e (mkState k1 (made_dirs s) (written s))) as (g' & k & E & Hnum & Hk & Hok').
    + by rewrite Hkeys, <- app_assoc.
    + unfold g1. cbn [stores]. apply Forall_forall.
      intros y [->|Hy]%dict_set_elem; [|by apply (proj1 (Forall_forall _ _) Hok)].
      split; [done|done].
    + exists g', k. split; [exact E|]. split; [done|]. split; [|done].
      by rewrite Hk, Hkeys, <- app_assoc.
Qed.

(** The stores the constructor builds. *)
Lemma new_returns n :
  returns (new cfg n)
    (fun g => num_stores g = n ∧ (stores g).*1 = seqZ 1 n ∧ Forall (store_ok cfg) (stores g)).
Proof using Hrange.
  intros e s. unfold new, initialize_stores. cbn [num_stores].
  destruct (initialize_stores_loop (seqZ 1 n) (mkGenerator n []) e s)
    as (g & k & E & Hn & Hk & Hok).
  - apply NoDup_seqZ.
  - constructor.
  - exists g, k, []. rewrite app_nil_r. by rewrite E.
Qed.

(** X15.  The constructor [DataGenerator(n)], when the configured bounds
    on cash registers are in order, returns without writing anything, with
    the stores numbered 1 to n in this order, each with a number of cash
    registers within the bounds and the cash registers numbered from 1 to
    that number. *)
Theorem new_stores n :
  returns (new cfg n)
    (fun g => num_stores g = n ∧ (stores g).*1 = seqZ 1 n ∧ Forall (store_ok cfg) (stores g)).
Proof using Hrange. apply new_returns. Qed.

End Stores.

Lemma returns_repeat_Forall {A} (m : Gen A) n (P : A → Prop) :
  returns m P → returns (repeat_gen n m) (fun l => length l = n ∧ Forall P l).
Proof.
  intros Hm. induction n as [|n IH]; simpl.
  - by apply returns_ret.
  - eapply returns_bind; [exact Hm|]. intros x Hx.
    eapply returns_bind; [exact IH|]. intros xs [Hl Hxs].
    apply returns_ret. simpl. split; [by rewrite Hl|by constructor].
Qed.

Lemma returns_random_unit : returns random (fun u => (0 <= u)%Q ∧ (u < 1)%Q).
Proof.
  unfold random. eapply returns_bind; [apply returns_next|].
  intros r _. apply returns_ret.
  pose proof (Z.mod_pos_bound r (2 ^ 53) ltac:(lia)) as Hb.
  unfold Qle, Qlt. cbn [Qnum Qden].
  change (Z.pos (2 ^ 53)) with (2 ^ 53). lia.
Qed.




Section Receipts.
Context (cfg : config) (Hcfg : config_ok cfg = true).

Lemma returns_select_item_in c :
  c ∈ CATEGORIES cfg →
  returns (select_item_from_category cfg c)
    (fun p => ∃ items, PRODUCTS_BY_CATEGORY cfg !! c = Some items ∧ p ∈ items).
Proof using Hcfg.
  intros Hc. unfold select_item_from_category.
  destruct (config_ok_products cfg Hcfg c Hc) as (items & E & Hne). rewrite E.
  eapply writes_mono; [apply returns_choice, Hne|].
  intros a ws [-> Ha]. split; [done|]. by exists items.
Qed.

Lemma returns_generate_item_ok doc store cash d :
  returns (generate_item cfg doc store cash d) (item_ok cfg doc store cash d).
Proof using Hcfg.
  unfold generate_item.
  eapply returns_bind; [apply returns_choice, config_ok_categories, Hcfg|].
  intros c Hc. eapply returns_bind; [by apply returns_select_item_in|].
  intros it (items & Hit & Hin). eapply returns_bind; [apply returns_uniform|].
  intros pr _. eapply returns_bind; [apply (returns_randint 1 5); lia|].
  intros am Ham. eapply returns_bind; [apply returns_calculate_discount|].
  intros ds _. apply returns_ret. unfold item_ok. simpl.
  simpl in Ham. split_and!; try done; try lia. by exists items, it.
Qed.

Lemma returns_generate_receipt_ok store cash d :
  0 ≤ ITEMS_PER_RECEIPT_MIN cfg →
  returns (generate_receipt cfg store cash d) (receipt_ok cfg store cash d).
Proof using Hcfg.
  intros Hmin. unfold generate_receipt.
  eapply returns_bind; [apply returns_generate_doc_id|]. intros doc _.
  eapply returns_bind; [apply returns_randint, config_ok_items, Hcfg|]. intros n Hn.
  eapply writes_mono; [apply returns_repeat_Forall, returns_generate_item_ok|].
  intros l ws [-> [Hl Hok]]. cbv beta in Hn. split; [done|]. split; [lia|]. by exists doc.
Qed.

(** X17.  Under a configuration that lets no draw raise and asks for at
    least zero items, the rows of one receipt are within the configured
    number of items, share one receipt id, carry the store, cash register
    and date given, and each has a quantity from 1 to 5, a configured
    category and a product configured for that category. *)
Theorem generate_receipt_rows store cash d :
  0 ≤ ITEMS_PER_RECEIPT_MIN cfg →
  returns (generate_receipt cfg store cash d) (receipt_ok cfg store cash d).
Proof using Hcfg. apply returns_generate_receipt_ok. Qed.


End Receipts.

Section Main.
Context (cfg : config) (Hcfg : config_ok cfg = true)
  (Hrange : MIN_CASH_REGISTERS_PER_STORE cfg ≤ MAX_CASH_REGISTERS_PER_STORE cfg).

Lemma strptime_nonempty s d : strptime s = Some d → s ≠ "".
Proof. by intros H ->. Qed.

(** X19.  With both [--start-date] and [--end-date], [main] takes neither
    [--force] nor [--date] into account: whatever their values, the files
    written are exactly those of the constructed stores for the days of the
    range that are neither a Sunday nor a holiday. *)
Theorem main_range_never_forced (a : GenerateSales.args) start_date end_date start end_ e s :
  GenerateSales.arg_start_date a = Some start_date →
  GenerateSales.arg_end_date a = Some end_date →
  strptime start_date = Some start →
  strptime end_date = Some end_ →
  end_ ≠ last_day →
  ∃ g s1 k dirs ws,
    new cfg (GenerateSales.arg_stores a) e s = (Ok g, s1)
    ∧ GenerateSales.main cfg a e s = (Ok tt, mkState k (made_dirs s ++ dirs) (written s ++ ws))
    ∧ ∀ p, p ∈ w_path <$> ws ↔ ∃ d, in_days start end_ d ∧ of_day cfg g d p.
Proof using Hcfg Hrange.
  intros Ha1 Ha2 Hs He Hlast.
  destruct (new_returns cfg Hrange (GenerateSales.arg_stores a) e s) as (g & k1 & ws1 & Enew & -> & _).
  rewrite app_nil_r in Enew.
  destruct (generate_date_range_runs cfg Hcfg g start_date end_date start end_ e
              (mkState k1 (made_dirs s) (written s)) Hs He Hlast)
    as (k & dirs & ws & E & Hws).
  exists g, (mkState k1 (made_dirs s) (written s)), k, dirs, ws.
  split; [done|]. split; [|done].
  unfold GenerateSales.main, bind at 1. rewrite Enew, Ha1, Ha2. cbn [DataLoader.truthy default].
  rewrite !bool_decide_eq_false_2 by by eapply strptime_nonempty.
  cbn [negb andb]. unfold bind, id. by rewrite E.
Qed.

End Main.

Section EmptyRange.
Context (cfg : config) (Hfew : RECEIPTS_PER_CASH_PER_DAY cfg < 20).




End EmptyRange.

(** *** Amounts, prices and discounts *)

Lemma returns_uniform_nonneg a b :
  (0 <= a)%Q → (0 <= b)%Q → returns (uniform a b) (fun x => (0 <= x)%Q).
Proof.
  intros Ha Hb. unfold uniform.
  eapply returns_bind; [apply returns_random_unit|].
  intros u [H0 H1]. apply returns_ret.
  assert (a + (b - a) * u == a * (1 - u) + b * u)%Q as -> by ring.
  assert (0 <= 1 - u)%Q.
  { apply Qlt_le_weak in H1. rewrite <- (Qplus_opp_r u).
    apply Qplus_le_compat; [done|apply Qle_refl]. }
  rewrite <- (Qplus_0_r 0).
  apply Qplus_le_compat; by apply Qmult_le_0_compat.
Qed.

Lemma round_2dp_nonneg q : (0 <= q)%Q → (0 <= round_2dp q)%Q.
Proof.
  intros Hq. unfold round_2dp, Qle. simpl.
  assert (0 ≤ round_half_even (q * 100)).
  { apply round_half_even_nonneg, Qmult_le_0_compat; [done|]. by unfold Qle. }
  lia.
Qed.

Section Amounts.
Context (cfg : config) (Hcfg : config_ok cfg = true) (Hamounts : amounts_ok cfg = true).

Lemma amounts_ok_discount : (0 <= (DISCOUNT_RANGE cfg).1)%Q ∧ (0 <= (DISCOUNT_RANGE cfg).2)%Q.
Proof using Hamounts.
  unfold amounts_ok in Hamounts.
  apply andb_true_iff in Hamounts as [[_ H1]%andb_true_iff H2].
  by apply Qle_bool_iff in H1, H2.
Qed.

Lemma amounts_ok_price c items p :
  c ∈ CATEGORIES cfg → PRODUCTS_BY_CATEGORY cfg !! c = Some items → p ∈ items →
  (0 <= (price_range p).1)%Q ∧ (0 <= (price_range p).2)%Q.
Proof using Hamounts.
  intros Hc Hi Hp. unfold amounts_ok in Hamounts.
  apply andb_true_iff in Hamounts as [[H _]%andb_true_iff _].
  rewrite forallb_forall in H. specialize (H c (proj1 (list_elem_of_In _ _) Hc)).
  rewrite Hi, forallb_forall in H. specialize (H p (proj1 (list_elem_of_In _ _) Hp)).
  apply andb_true_iff in H as [H1 H2]. by apply Qle_bool_iff in H1, H2.
Qed.

Lemma returns_calculate_discount_nonneg price :
  (0 <= price)%Q → returns (calculate_discount cfg price) (fun x => (0 <= x)%Q).
Proof using Hamounts.
  intros Hp. destruct amounts_ok_discount as [Hlo Hhi].
  unfold calculate_discount. eapply returns_bind; [apply returns_random|].
  intros u _. destruct (Qlt_le_dec u (DISCOUNT_PROBABILITY cfg)).
  - eapply returns_bind; [by apply returns_uniform_nonneg|]. intros pc Hpc.
    apply returns_ret. by apply round_2dp_nonneg, Qmult_le_0_compat.
  - by apply returns_ret.
Qed.

Lemma returns_generate_item_mask doc store cash d :
  returns (generate_item cfg doc store cash d) passes_mask.
Proof using Hcfg Hamounts.
  unfold generate_item.
  eapply returns_bind; [apply returns_choice, config_ok_categories, Hcfg|].
  intros c Hc. eapply returns_bind; [by apply returns_select_item_in|].
  intros it (items & Hit & Hin).
  destruct (amounts_ok_price c items it Hc Hit Hin) as [Hlo Hhi].
  eapply returns_bind; [by apply returns_uniform_nonneg|].
  intros pr Hpr. eapply returns_bind; [apply (returns_randint 1 5); lia|].
  intros am Ham. eapply returns_bind; [by apply returns_calculate_discount_nonneg|].
  intros ds Hds. apply returns_ret. unfold passes_mask. simpl. simpl in Ham.
  split; [lia|]. split; [by apply round_2dp_nonneg|done].
Qed.

(** X21.  Under a configuration that lets no draw raise and whose price
    bounds and discount bounds are not negative, every row of a generated
    receipt has a positive amount, a price that is not negative and a
    discount that is not negative: the three conditions the loader filters
    on. *)
Theorem generate_receipt_passes_mask store cash d :
  returns (generate_receipt cfg store cash d) (Forall passes_mask).
Proof using Hcfg Hamounts.
  unfold generate_receipt.
  eapply returns_bind; [apply returns_generate_doc_id|]. intros doc _.
  eapply returns_bind; [apply returns_randint, config_ok_items, Hcfg|]. intros n Hn.
  eapply writes_mono; [apply returns_repeat_Forall, returns_generate_item_mask|].
  intros l ws [-> [_ Hok]]. done.
Qed.

End Amounts.

End GeneratorMore.

(** ** Instances of the further properties *)

Section SamplesMore.
Import SimpleDB DataLoader.

Lemma save_file_data_other_files_witness :
  "3_2.csv" ≠ "4_1.csv"
  ∧ rows_of "3_2.csv" (save_file_data (no_faults 7) "4_1.csv" [bread_record] loaded_db).2
    = rows_of "3_2.csv" loaded_db
  ∧ processed_files (save_file_data (no_faults 7) "4_1.csv" [bread_record] loaded_db).2
      !! "3_2.csv"
    = processed_files loaded_db !! "3_2.csv".
Proof.
  split; [discriminate|].
  apply (save_file_data_other_files (no_faults 7) "4_1.csv" [bread_record] loaded_db
           "3_2.csv").
  discriminate.
Defined.

Lemma save_file_data_retry_witness :
  commits (no_faults 7) [bread_record] = true
  ∧ commits (no_faults 8) [bread_record] = true
  ∧ rows_of "3_2.csv" (save_file_data (no_faults 7) "3_2.csv" [bread_record] loaded_db).2
    = to_receipt "3_2.csv" <$> [bread_record]
  ∧ receipts (save_file_data (no_faults 8) "3_2.csv" [bread_record]
                (save_file_data (no_faults 7) "3_2.csv" [bread_record] loaded_db).2).2
    = receipts (save_file_data (no_faults 7) "3_2.csv" [bread_record] loaded_db).2.
Proof.
  split; [reflexivity|]. split; [reflexivity|].
  apply (save_file_data_retry (no_faults 7) (no_faults 8) "3_2.csv" [bread_record]
           loaded_db); reflexivity.
Defined.

Lemma main_keeps_ledger_consistent_witness :
  ledger_consistent loaded_db
  ∧ ledger_consistent
      (DataLoader.main (mkEnv (fun _ => (no_faults 1, no_faults 2)) 0 5) scenario_tree []
         (DataLoader.mkArgs None None false false) loaded_db).2.2.
Proof.
  assert (ledger_consistent loaded_db) as H.
  { intros filename e Hl Hs. unfold loaded_db in Hl. cbn [processed_files] in Hl.
    apply lookup_singleton_Some in Hl as [<- <-]. vm_compute. reflexivity. }
  split; [exact H|].
  apply (main_keeps_ledger_consistent _ scenario_tree [] _ loaded_db H).
Defined.

Lemma save_file_data_existing_entry_witness :
  processed_files failed_db !! "3_2.csv"
  = Some (mkProcessed "error" Default (Value "connection reset") Default)
  ∧ commits (no_faults 7) [bread_record] = true
  ∧ processed_files (save_file_data (no_faults 7) "3_2.csv" [bread_record] failed_db).2
      !! "3_2.csv"
    = Some (mkProcessed "success" (Value 1) (Value "connection reset") (Value 7)).
Proof.
  split; [vm_compute; reflexivity|]. split; [reflexivity|].
  apply (proj1 (save_file_data_existing_entry (no_faults 7) "3_2.csv" [bread_record]
                  failed_db
                  (mkProcessed "error" Default (Value "connection reset") Default)
                  ltac:(vm_compute; reflexivity))).
  reflexivity.
Defined.

Lemma is_file_processed_after_save_witness :
  query_ok (no_faults 1) = true
  ∧ commits (no_faults 7) [bread_record] = true
  ∧ is_file_processed (no_faults 1) "3_2.csv"
      (save_file_data (no_faults 7) "3_2.csv" [bread_record] failed_db).2 = true.
Proof.
  split; [reflexivity|]. split; [reflexivity|].
  apply (proj1 (is_file_processed_after_save (no_faults 7) (no_faults 1) "3_2.csv"
                  [bread_record] failed_db ltac:(reflexivity))).
  reflexivity.
Defined.

Lemma read_and_prepare_data_rows_witness :
  ∃ out,
    read_and_prepare_data mixed_tree mixed_path = Some out
    ∧ ∃ store cash d,
        extract_store_cash_from_filename (path_name mixed_path) = Some (store, cash)
        ∧ Calendar.strptime (parent_name mixed_path) = Some d
        ∧ Forall (fun r => row_clean r
                           ∧ store_id r = store ∧ cash_id r = cash ∧ receipt_date r = d)
                 out.
Proof.
  eexists. split; [vm_compute; reflexivity|].
  apply (read_and_prepare_data_rows mixed_tree mixed_path).
  vm_compute; reflexivity.
Defined.

Lemma same_name_is_skipped_witness :
  process_file (no_faults 1) unreachable sample_tree sample_path (init, loaded_db)
  = (Ok true, (init, loaded_db))
  ∧ path_name ["archive"; "2024-03-11"; "3_2.csv"] = path_name sample_path
  ∧ query_ok (no_faults 3) = true
  ∧ process_file (no_faults 3) (no_faults 4) [] ["archive"; "2024-03-11"; "3_2.csv"]
      (init, loaded_db)
    = (Ok true, (init, loaded_db)).
Proof.
  assert (process_file (no_faults 1) unreachable sample_tree sample_path (init, loaded_db)
          = (Ok true, (init, loaded_db))) as H by (vm_compute; reflexivity).
  split; [exact H|]. split; [reflexivity|]. split; [reflexivity|].
  apply (same_name_is_skipped _ _ _ _ _ _ (no_faults 3) (no_faults 4) []
           ["archive"; "2024-03-11"; "3_2.csv"] H); reflexivity.
Defined.

Lemma find_csv_files_order_independent_witness :
  rglob_csv scenario_tree [] ≡ₚ rglob_csv swapped_tree []
  ∧ NoDup (sort_key <$> filter in_date_dir (rglob_csv scenario_tree []))
  ∧ find_csv_files scenario_tree [] = find_csv_files swapped_tree [].
Proof.
  assert (rglob_csv scenario_tree [] ≡ₚ rglob_csv swapped_tree []) as H1
    by (vm_compute; apply perm_swap).
  assert (NoDup (sort_key <$> filter in_date_dir (rglob_csv scenario_tree []))) as H2
    by (apply (bool_decide_unpack _); vm_compute; reflexivity).
  split; [exact H1|]. split; [exact H2|].
  apply (find_csv_files_order_independent scenario_tree [] swapped_tree [] H1 H2).
Defined.

Lemma process_all_files_statistics_witness :
  process_all_files (mkEnv (fun _ => (no_faults 1, no_faults 2)) 0 5) sample_tree ["data"]
    None (init, loaded_db)
  = (Ok (mkStats 0 0 0 5), (init, loaded_db))
  ∧ find_csv_files sample_tree ["data"] ≠ []
  ∧ counted init init ≤ Z.of_nat (length (find_csv_files sample_tree ["data"])).
Proof.
  assert (process_all_files (mkEnv (fun _ => (no_faults 1, no_faults 2)) 0 5) sample_tree
            ["data"] None (init, loaded_db)
          = (Ok (mkStats 0 0 0 5), (init, loaded_db))) as H by (vm_compute; reflexivity).
  split; [exact H|]. split; [vm_compute; discriminate|].
  apply (process_all_files_statistics _ _ _ _ _ _ _ _ _ H).
Defined.

End SamplesMore.

Section SamplesGenerator.
Import DataLoader DataGenerator.


Lemma extract_file_name_of_witness :
  0 ≤ 12 ∧ 0 ≤ 3
  ∧ extract_store_cash_from_filename (file_name_of 12 3) = Some (12, 3).
Proof.
  split; [lia|]. split; [lia|]. apply (extract_file_name_of 12 3); lia.
Defined.


Lemma generate_date_range_days_witness :
  config_ok sample_config = true
  ∧ Calendar.strptime "2024-01-06" = Some (Calendar.mkDate 2024 1 6)
  ∧ Calendar.strptime "2024-01-08" = Some (Calendar.mkDate 2024 1 8)
  ∧ Calendar.mkDate 2024 1 8 ≠ last_day
  ∧ ∃ k dirs ws,
      generate_date_range sample_config one_till "2024-01-06" "2024-01-08"
        zero_entropy start_state
      = (Ok (Z.of_nat (length ws)), mkState k dirs ws)
      ∧ ∀ p, p ∈ w_path <$> ws ↔
             ∃ d, in_days (Calendar.mkDate 2024 1 6) (Calendar.mkDate 2024 1 8) d
                  ∧ of_day sample_config one_till d p.
Proof.
  split; [vm_compute; reflexivity|]. split; [vm_compute; reflexivity|].
  split; [vm_compute; reflexivity|]. split; [discriminate|].
  destruct (generate_date_range_days sample_config ltac:(vm_compute; reflexivity) one_till
              "2024-01-06" "2024-01-08" (Calendar.mkDate 2024 1 6)
              (Calendar.mkDate 2024 1 8) zero_entropy start_state)
    as (k & dirs & ws & E & Hws & _);
    [vm_compute; reflexivity|vm_compute; reflexivity|discriminate|].
  exists k, dirs, ws. split; [exact E|exact Hws].
Defined.

Lemma new_stores_witness :
  MIN_CASH_REGISTERS_PER_STORE sample_config ≤ MAX_CASH_REGISTERS_PER_STORE sample_config
  ∧ returns (new sample_config 2)
      (fun g => num_stores g = 2 ∧ (stores g).*1 = [1; 2]
                ∧ Forall (store_ok sample_config) (stores g)).
Proof.
  split; [vm_compute; discriminate|].
  apply (new_stores sample_config ltac:(vm_compute; discriminate) 2).
Defined.

Lemma generate_receipt_rows_witness :
  config_ok sample_config = true
  ∧ 0 ≤ ITEMS_PER_RECEIPT_MIN sample_config
  ∧ returns (generate_receipt sample_config 3 2 (Calendar.mkDate 2024 3 10))
      (receipt_ok sample_config 3 2 (Calendar.mkDate 2024 3 10)).
Proof.
  split; [vm_compute; reflexivity|]. split; [vm_compute; discriminate|].
  apply (generate_receipt_rows sample_config ltac:(vm_compute; reflexivity) 3 2
           (Calendar.mkDate 2024 3 10)).
  vm_compute; discriminate.
Defined.


Lemma main_range_never_forced_witness :
  config_ok sample_config = true
  ∧ MIN_CASH_REGISTERS_PER_STORE sample_config ≤ MAX_CASH_REGISTERS_PER_STORE sample_config
  ∧ Calendar.strptime "2024-01-06" = Some (Calendar.mkDate 2024 1 6)
  ∧ Calendar.strptime "2024-01-08" = Some (Calendar.mkDate 2024 1 8)
  ∧ Calendar.mkDate 2024 1 8 ≠ last_day
  ∧ ∃ g s1 k dirs ws,
      new sample_config 2 zero_entropy start_state = (Ok g, s1)
      ∧ GenerateSales.main sample_config
          (GenerateSales.mkArgs (Some "2024-01-07") 2 (Some "2024-01-06")
             (Some "2024-01-08") true false)
          zero_entropy start_state
        = (Ok tt, mkState k dirs ws)
      ∧ ∀ p, p ∈ w_path <$> ws ↔
             ∃ d, in_days (Calendar.mkDate 2024 1 6) (Calendar.mkDate 2024 1 8) d
                  ∧ of_day sample_config g d p.
Proof.
  split; [vm_compute; reflexivity|]. split; [vm_compute; discriminate|].
  split; [vm_compute; reflexivity|]. split; [vm_compute; reflexivity|].
  split; [discriminate|].
  apply (main_range_never_forced sample_config ltac:(vm_compute; reflexivity)
           ltac:(vm_compute; discriminate)
           (GenerateSales.mkArgs (Some "2024-01-07") 2 (Some "2024-01-06")
              (Some "2024-01-08") true false)
           "2024-01-06" "2024-01-08" (Calendar.mkDate 2024 1 6) (Calendar.mkDate 2024 1 8)
           zero_entropy start_state);
    [reflexivity|reflexivity|vm_compute; reflexivity|vm_compute; reflexivity|discriminate].
Defined.


Lemma generate_receipt_passes_mask_witness :
  config_ok sample_config = true
  ∧ amounts_ok sample_config = true
  ∧ returns (generate_receipt sample_config 3 2 (Calendar.mkDate 2024 3 10)) (Forall passes_mask).
Proof.
  split; [vm_compute; reflexivity|]. split; [vm_compute; reflexivity|].
  apply (generate_receipt_passes_mask sample_config); vm_compute; reflexivity.
Defined.

End SamplesGenerator.
